(** * braket.default_simulator.operation_helpers

    A shallow embedding of [operation_helpers.py] of the Amazon Braket
    default simulator, and the properties of its functions:
    [from_braket_instruction], [pauli_eigenvalues], [ir_matrix_to_ndarray],
    [check_matrix_dimensions], [check_unitary], [check_hermitian],
    [check_CPTP] and [get_matrix].

    Python values are modelled by the inductive type [value], calls by the
    [result] type (a returned value or a raised exception), numpy arrays by
    their shape and their row-major buffer, and double precision numbers by
    Rocq's primitive binary64 floats; the C library's [hypot], behind
    numpy's [abs], is a parameter. *)

From Stdlib Require Import ZArith List Lia PrimFloat SpecFloat FloatOps FloatAxioms.
From stdpp Require Import base list gmap strings.

Set Warnings "-register-all".
Local Open Scope Z_scope.

(** ** Scalars *)

(** Python's [float] and numpy's [float64] are IEEE 754 binary64 numbers. *)
Definition float64 : Set := PrimFloat.float.

(** Python's [complex] and numpy's [complex128]: a pair of binary64 numbers. *)
Record complex128 : Set := Complex { real : float64; imag : float64 }.
Arguments Complex (real imag)%_float_scope.

(** ** The C library *)

(** numpy takes the modulus of a complex number with the C library's
    [hypot]. The library is not part of the repository and its roundings
    differ from one platform to the next: its function is a parameter of
    the model. *)
Class Libm : Type := { hypot : float64 -> float64 -> float64 }.

(** What the C standard (Annex F) asks of [hypot] on an axis:
    [hypot(x, ±0)] is [fabs(x)]. *)
Definition hypot_of_zero (L : Libm) : Prop :=
  forall x y : float64, (y =? 0)%float = true -> hypot x y = PrimFloat.abs x.

(** A [hypot] to compute with: the special values of Annex F, and
    otherwise the square root of the exact sum of the squares, rounded
    once. *)
Definition hypot_ref (x y : float64) : float64 :=
  if (y =? 0)%float then PrimFloat.abs x
  else if (x =? 0)%float then PrimFloat.abs y
  else
    match Prim2SF x, Prim2SF y with
    | S754_infinity _, _ | _, S754_infinity _ => PrimFloat.infinity
    | S754_finite _ mx ex, S754_finite _ my ey =>
        let e := Z.min ex ey in
        SF2Prim (SFsqrt prec emax
          (S754_finite false
             (mx * mx * Pos.pow 4 (Z.to_pos (ex - e + 1))
              + my * my * Pos.pow 4 (Z.to_pos (ey - e + 1)))%positive
             (2 * e - 2)))
    | _, _ => PrimFloat.nan
    end.

#[global] Instance reference_libm : Libm := {| hypot := hypot_ref |}.

Module C128.

Definition zero : complex128 := Complex 0%float 0%float.
Definition one : complex128 := Complex 1%float 0%float.

(** A real number promoted to [complex128], as numpy does when a
    [float64] meets a [complex128]. *)
Definition of_float (x : float64) : complex128 := Complex x 0%float.

Definition add (x y : complex128) : complex128 :=
  Complex (real x + real y)%float (imag x + imag y)%float.

Definition sub (x y : complex128) : complex128 :=
  Complex (real x - real y)%float (imag x - imag y)%float.

Definition mul (x y : complex128) : complex128 :=
  Complex (real x * real y - imag x * imag y)%float
          (real x * imag y + imag x * real y)%float.

Definition conj (x : complex128) : complex128 :=
  Complex (real x) (- imag x)%float.

(** The modulus, [abs(x)]: the C library's [hypot] of the two parts. *)
Definition abs {L : Libm} (x : complex128) : float64 :=
  hypot (real x) (imag x).

Definition isfinite (x : complex128) : bool :=
  PrimFloat.is_finite (real x) && PrimFloat.is_finite (imag x).

(** [x == y] on complex numbers: IEEE equality of both parts. *)
Definition eqb (x y : complex128) : bool :=
  (real x =? real y)%float && (imag x =? imag y)%float.

End C128.

(** numpy's [int64]: a 64-bit two's complement integer, as a [Z] in
  [-2^63, 2^63). *)
Module Int64.

Definition wrap (z : Z) : Z := (z + 2 ^ 63) mod 2 ^ 64 - 2 ^ 63.

(** Unary minus of an [int64] array element (wraps at [-2^63]). *)
Definition neg (z : Z) : Z := wrap (- z).

End Int64.

(** ** numpy arrays *)

(** An [np.ndarray] with elements of type [A]: its [shape] and its elements
    in row-major (C) order. *)
Record ndarray (A : Type) : Type := NdArray { shape : list nat; flat : list A }.
Arguments NdArray {A} shape flat.
Arguments shape {A} _.
Arguments flat {A} _.

(** A complex matrix or array, the [np.ndarray] of the type annotations. *)
Abbreviation carray := (ndarray complex128).

(** ** Python values and exceptions *)

(** The Python values the functions of this module meet. An object carries
    the method resolution order of its class (class names, the class itself
    first) and its attributes. *)
Inductive value : Type :=
  | VNone
  | VInt (z : Z)
  | VFloat (x : float64)
  | VArray (a : carray)
  | VList (items : list value)
  | VObject (mro : list string) (attrs : list (string * value)).

(** The texts of the [ValueError]s raised by this module, with the values
    formatted into them. [msg_numpy] stands for the messages of the
    [ValueError]s numpy itself raises. *)
Inductive message : Type :=
  | msg_instruction_not_recognized (instruction : value)
      (* f"Instruction {instruction} not recognized" *)
  | msg_not_square (matrix : carray)
      (* f"{matrix} is not a two-dimensional square matrix" *)
  | msg_wrong_dimension (actual expected : nat)
      (* f"`matrix` operates on space of dimension {actual} instead of {expected}" *)
  | msg_not_unitary (matrix : carray)
      (* f"{matrix} is not unitary" *)
  | msg_not_hermitian (matrix : carray)
      (* f"{matrix} is not Hermitian" *)
  | msg_not_CPTP (matrices : list carray)
      (* f"{matrices} does not satisfy CPTP" *)
  | msg_unrecognized_operation (operation : value)
      (* f"Unrecognized operation: {operation}" *)
  | msg_numpy.

Inductive exception : Type :=
  | ValueError (msg : message)
  | RecursionError
  | AttributeError (name : string)
  | IndexError
  | TypeError.

(** The outcome of a call: it returns, it raises, or it leaves the part of
    numpy that is modelled here ([Beyond]: products, transposes and
    broadcasts of arrays that are not two-dimensional). *)
Inductive result (A : Type) : Type :=
  | Returns (a : A)
  | Raises (e : exception)
  | Beyond.
Arguments Returns {A} a.
Arguments Raises {A} e.
Arguments Beyond {A}.

#[global] Instance result_ret : MRet result := fun A a => Returns a.

#[global] Instance result_bind : MBind result := fun A B k r =>
  match r with
  | Returns a => k a
  | Raises e => Raises e
  | Beyond => Beyond
  end.

(** A list comprehension whose body can raise: the elements are evaluated
    from left to right and the first exception ends it. *)
Fixpoint comprehension {A B : Type} (f : A -> result B) (l : list A) : result (list B) :=
  match l with
  | [] => Returns []
  | x :: l' => y ← f x; ys ← comprehension f l'; Returns (y :: ys)
  end.

(** [l[i]] on a Python list. *)
Definition getitem {A : Type} (l : list A) (i : nat) : result A :=
  match nth_error l i with
  | Some x => Returns x
  | None => Raises IndexError
  end.

(** The class of a value, as its method resolution order. *)
Definition type_of (v : value) : list string :=
  match v with
  | VNone => ["NoneType"; "object"]
  | VInt _ => ["int"; "object"]
  | VFloat _ => ["float"; "object"]
  | VArray _ => ["ndarray"; "object"]
  | VList _ => ["list"; "object"]
  | VObject mro _ => mro
  end%string.

Definition isinstance (v : value) (cls : string) : Prop := cls ∈ type_of v.

Fixpoint assoc (name : string) (attrs : list (string * value)) : option value :=
  match attrs with
  | [] => None
  | (k, v) :: attrs' => if String.eqb k name then Some v else assoc name attrs'
  end.

(** The attributes of a value: only objects have the ones this module reads. *)
Definition attribute (obj : value) (name : string) : option value :=
  match obj with
  | VObject _ attrs => assoc name attrs
  | _ => None
  end.

(** [obj.name]. *)
Definition getattr (obj : value) (name : string) : result value :=
  match attribute obj name with
  | Some v => Returns v
  | None => Raises (AttributeError name)
  end.

(** ** [functools.lru_cache] around [pauli_eigenvalues] *)

(** The cache of [@lru_cache()]: the results of the calls that returned,
    keyed by the argument, the most recently used first; at most [maxsize]
    of them are kept. *)
Definition lru_cache : Type := list (Z * ndarray Z).

Definition maxsize : nat := 128.

Fixpoint cache_find (key : Z) (cache : lru_cache) : option (ndarray Z) :=
  match cache with
  | [] => None
  | (k, v) :: cache' => if k =? key then Some v else cache_find key cache'
  end.

Fixpoint cache_remove (key : Z) (cache : lru_cache) : lru_cache :=
  match cache with
  | [] => []
  | (k, v) :: cache' =>
      if k =? key then cache_remove key cache' else (k, v) :: cache_remove key cache'
  end.

(** A hit moves the entry to the front. *)
Definition cache_touch (key : Z) (v : ndarray Z) (cache : lru_cache) : lru_cache :=
  (key, v) :: cache_remove key cache.

(** After a miss the result is stored, unless the key came in meanwhile; a
    full cache drops its least recently used entry. *)
Definition cache_store (key : Z) (v : ndarray Z) (cache : lru_cache) : lru_cache :=
  match cache_find key cache with
  | Some _ => cache
  | None =>
      if (maxsize <=? length cache)%nat then (key, v) :: removelast cache
      else (key, v) :: cache
  end.

(** ** The numpy functions of [pauli_eigenvalues] *)

(** [np.array(l)] on a flat list of numbers. *)
Definition array1 {A : Type} (l : list A) : ndarray A := NdArray [length l] l.

(** [-a]. *)
Definition negative (a : ndarray Z) : ndarray Z :=
  NdArray (shape a) (map Int64.neg (flat a)).

(** [np.concatenate([a, b])], along the first axis: the other axes must
    agree, and there must be a first axis. *)
Definition concatenate2 {A : Type} (a b : ndarray A) : result (ndarray A) :=
  match shape a, shape b with
  | n :: sa, m :: sb =>
      if decide (sa = sb) then Returns (NdArray ((n + m)%nat :: sa) (flat a ++ flat b))
      else Raises (ValueError msg_numpy)
  | _, _ => Raises (ValueError msg_numpy)
  end.

(** ** [pauli_eigenvalues] *)

(** [depth] is the number of nested calls the interpreter still allows
    (its recursion limit): every call of the decorated function needs one,
    a call served from the cache too, since the call of the wrapper counts
    against the limit, and [RecursionError] is raised when none is left.
    Only a call that returns is stored. *)
Fixpoint pauli_eigenvalues (depth : nat) (num_qubits : Z) (cache : lru_cache)
  : result (ndarray Z) * lru_cache :=
  match depth with
  | O => (Raises RecursionError, cache)
  | S depth' =>
      match cache_find num_qubits cache with
      | Some v => (Returns v, cache_touch num_qubits v cache)
      | None =>
          if num_qubits =? 1 then
            let v := array1 [1; -1] in
            (Returns v, cache_store num_qubits v cache)
          else
            let (r1, cache1) := pauli_eigenvalues depth' (num_qubits - 1) cache in
            match r1 with
            | Returns a =>
                let (r2, cache2) := pauli_eigenvalues depth' (num_qubits - 1) cache1 in
                match r2 with
                | Returns b =>
                    match concatenate2 a (negative b) with
                    | Returns v => (Returns v, cache_store num_qubits v cache2)
                    | r => (r, cache2)
                    end
                | r => (r, cache2)
                end
            | r => (r, cache1)
            end
      end
  end.

(** The reference definition of the spectrum, in the words of the
    specification: [[1, -1]] for one qubit, and for each further qubit the
    spectrum so far followed by its element-wise negation. [spectrum k] is
    the spectrum of [k + 1] qubits. *)
Fixpoint spectrum (k : nat) : list Z :=
  match k with
  | O => [1; -1]
  | S k' => spectrum k' ++ map Z.opp (spectrum k')
  end.

Definition pauli_eigenvalues_spec (n : Z) : ndarray Z :=
  array1 (spectrum (Z.to_nat (n - 1))).

(** What the cache holds between calls: results of calls that returned. *)
Definition cache_ok (cache : lru_cache) : Prop :=
  Forall (fun kv => 1 <= kv.1 /\ kv.2 = pauli_eigenvalues_spec kv.1) cache.

(** ** The numpy functions of the matrix checks *)

(** A two-dimensional array built from its entries: [tabulate r c f] has
    the shape [(r, c)] and the entry [f i j] in row [i], column [j]. *)
Definition tabulate {A : Type} (r c : nat) (f : nat -> nat -> A) : ndarray A :=
  NdArray [r; c] (flat_map (fun i => map (f i) (seq 0 c)) (seq 0 r)).

(** [a[i, j]] of a two-dimensional array, read from the row-major buffer. *)
Definition entry {A : Type} (d : A) (a : ndarray A) (i j : nat) : A :=
  match shape a with
  | [_; c] => nth (i * c + j)%nat (flat a) d
  | _ => d
  end.

Notation "a .[ i , j ]" := (entry C128.zero a i j)
  (at level 1, i at level 50, j at level 50, format "a .[ i ,  j ]").

(** [len(a)]: the first axis; a zero-dimensional array has no [len]. *)
Definition len {A : Type} (a : ndarray A) : result nat :=
  match shape a with
  | [] => Raises TypeError
  | n :: _ => Returns n
  end.

(** [np.eye(N, M, k)]: ones on the [k]-th diagonal, zeros elsewhere. The
    [float64] entries are written as the [complex128] numbers they are
    promoted to when compared with a complex array. *)
Definition eye (N M k : nat) : carray :=
  tabulate N M (fun i j => if (i + k =? j)%nat then C128.one else C128.zero).

(** [np.eye] called with the unpacked shape: its entries become [N], [M]
    and [k]; a fourth one would be taken for a [dtype]. *)
Definition eye_star (sh : list nat) : result carray :=
  match sh with
  | [N] => Returns (eye N N 0)
  | [N; M] => Returns (eye N M 0)
  | [N; M; k] => Returns (eye N M k)
  | _ => Raises TypeError
  end.

(** [a.T]: the transpose of a matrix; arrays of fewer axes are unchanged. *)
Definition transpose (a : carray) : result carray :=
  match shape a with
  | [] | [_] => Returns a
  | [r; c] => Returns (tabulate c r (fun i j => a.[j, i]))
  | _ => Beyond
  end.

(** [a.conj()], [a.conjugate()]. *)
Definition conj (a : carray) : carray :=
  NdArray (shape a) (map C128.conj (flat a)).

(** The sum of products of row [i] of [a] and column [j] of [b], added up
    from the left (numpy leaves the order of the additions to its BLAS
    routine; the order matters to the rounding alone). *)
Definition dot_entry (k : nat) (a b : carray) (i j : nat) : complex128 :=
  fold_left (fun acc l => C128.add acc (C128.mul a.[i, l] b.[l, j])) (seq 0 k) C128.zero.

(** [a.dot(b)], [np.dot(a, b)] on matrices. *)
Definition dot (a b : carray) : result carray :=
  match shape a, shape b with
  | [r; k], [k'; c] =>
      if (k =? k')%nat then Returns (tabulate r c (dot_entry k a b))
      else Raises (ValueError msg_numpy)
  | _, _ => Beyond
  end.

(** Broadcasting of two axes: equal lengths, or one of them [1]. *)
Definition broadcast_dim (n m : nat) : option nat :=
  if (n =? m)%nat then Some n
  else if (n =? 1)%nat then Some m
  else if (m =? 1)%nat then Some n
  else None.

(** The index read on an axis of length [n] that may be stretched. *)
Definition stretch (n i : nat) : nat := if (n =? 1)%nat then O else i.

(** An element-wise operation on two matrices, with broadcasting. *)
Definition elementwise {A : Type} (f : complex128 -> complex128 -> A) (a b : carray)
  : result (ndarray A) :=
  match shape a, shape b with
  | [ra; ca], [rb; cb] =>
      match broadcast_dim ra rb, broadcast_dim ca cb with
      | Some r, Some c =>
          Returns (tabulate r c (fun i j =>
            f a.[stretch ra i, stretch ca j] b.[stretch rb i, stretch cb j]))
      | _, _ => Raises (ValueError msg_numpy)
      end
  | _, _ => Beyond
  end.

(** [a + b]. *)
Definition add (a b : carray) : result carray := elementwise C128.add a b.

(** [0 + a], the integer [0] promoted to [complex128]. *)
Definition zero_plus (a : carray) : carray :=
  NdArray (shape a) (map (C128.add C128.zero) (flat a)).

Fixpoint sum_from (acc : carray) (terms : list carray) : result carray :=
  match terms with
  | [] => Returns acc
  | t :: terms' => acc' ← add acc t; sum_from acc' terms'
  end.

(** The built-in [sum(terms)] starts from the integer [0]:
    [sum([])] is [0], and [sum([t1, t2, ...])] is [((0 + t1) + t2) + ...]. *)
Definition sum (terms : list carray) : result value :=
  match terms with
  | [] => Returns (VInt 0)
  | t :: terms' => E ← sum_from (zero_plus t) terms'; Returns (VArray E)
  end.

(** The default tolerances of [np.isclose] and [np.allclose]. *)
(* rtol = 1e-05, atol = 1e-08, as the binary64 numbers these literals denote *)
Definition rtol : float64 := 0x1.4f8b588e368f1p-17%float.
Definition atol : float64 := 0x1.5798ee2308c3ap-27%float.

(** [abs(x - y) <= atol + rtol * abs(y)]. *)
Definition within_tol {L : Libm} (x y : complex128) : bool :=
  (C128.abs (C128.sub x y) <=? atol + rtol * C128.abs y)%float.

(** [np.isclose(x, y)] on two numbers: the tolerance test where both are
    finite, equality otherwise (infinities of the same sign are close, a NaN
    is close to nothing). *)
Definition isclose {L : Libm} (x y : complex128) : bool :=
  if C128.isfinite x && C128.isfinite y then within_tol x y else C128.eqb x y.

(** [np.allclose(a, b)]: every pair of elements is close. *)
Definition allclose {L : Libm} (a b : carray) : result bool :=
  close ← elementwise isclose a b; Returns (forallb id (flat close)).

(** [np.array(rows)] on a list of lists of numbers: the rows of a matrix.
    No rows give an empty one-dimensional array; rows of different lengths
    do not give a matrix (what they give depends on the numpy version). *)
Definition array2 {A : Type} (rows : list (list A)) : result (ndarray A) :=
  match rows with
  | [] => Returns (NdArray [O] [])
  | row :: _ =>
      if forallb (fun row' => (length row' =? length row)%nat) rows
      then Returns (NdArray [length rows; length row] (concat rows))
      else Beyond
  end.

(** ** [functools.singledispatch] *)

(** A generic function: the function it was made from, which serves every
    class without a registered implementation (it is registered for
    [object]), and the implementations registered for classes, by class. *)
Record generic : Type := Generic {
  fallback : value -> result value;
  registry : gmap string (value -> result value)
}.

Definition singledispatch (func : value -> result value) : generic :=
  Generic func ∅.

Definition register (cls : string) (impl : value -> result value) (g : generic) : generic :=
  Generic (fallback g) (<[cls := impl]> (registry g)).

(** The implementation for a class: that of the first class of its method
    resolution order that has one. *)
Fixpoint find_impl (reg : gmap string (value -> result value)) (mro : list string)
  : option (value -> result value) :=
  match mro with
  | [] => None
  | cls :: mro' =>
      match reg !! cls with
      | Some impl => Some impl
      | None => find_impl reg mro'
      end
  end.

Definition dispatch (g : generic) (mro : list string) : value -> result value :=
  default (fallback g) (find_impl (registry g) mro).

(** A call of a generic function dispatches on the class of the argument. *)
Definition call (g : generic) (arg : value) : result value :=
  dispatch g (type_of arg) arg.

(** ** [from_braket_instruction] *)

(** [_from_braket_instruction] is declared here with its default alone; the
    modules that define operations register their constructors on it.
    [constructors] are these registrations, by instruction class. *)
Definition _from_braket_instruction (constructors : gmap string (value -> result value))
  : generic :=
  Generic
    (fun instruction => Raises (ValueError (msg_instruction_not_recognized instruction)))
    constructors.

Definition from_braket_instruction (constructors : gmap string (value -> result value))
  (instruction : value) : result value :=
  call (_from_braket_instruction constructors) instruction.

(** ** [ir_matrix_to_ndarray] *)

Definition ir_matrix_to_ndarray (matrix : list (list (list float64))) : result carray :=
  rows ← comprehension (fun row =>
            comprehension (fun element =>
              re ← getitem element 0;
              im ← getitem element 1;
              Returns (Complex re im)) row) matrix;
  array2 rows.

(** ** [check_matrix_dimensions] *)

Definition check_matrix_dimensions (matrix : carray) (targets : list Z) : result unit :=
  let not_square :=
    if negb (length (shape matrix) =? 2)%nat then Returns true
    else
      side0 ← getitem (shape matrix) 0;
      side1 ← getitem (shape matrix) 1;
      Returns (negb (side0 =? side1)%nat) in
  b ← not_square;
  if b : bool then Raises (ValueError (msg_not_square matrix))
  else
    let dimension := (2 ^ length targets)%nat in
    side0 ← getitem (shape matrix) 0;
    if negb (dimension =? side0)%nat
    then Raises (ValueError (msg_wrong_dimension side0 dimension))
    else Returns tt.

(** ** [check_unitary] *)

Definition check_unitary {L : Libm} (matrix : carray) : result unit :=
  n ← len matrix;
  matrix_T ← transpose matrix;
  product ← dot matrix (conj matrix_T);
  close ← allclose (eye n n 0) product;
  if negb close then Raises (ValueError (msg_not_unitary matrix)) else Returns tt.

(** ** [check_hermitian] *)

Definition check_hermitian {L : Libm} (matrix : carray) : result unit :=
  matrix_T ← transpose matrix;
  close ← allclose matrix (conj matrix_T);
  if negb close then Raises (ValueError (msg_not_hermitian matrix)) else Returns tt.

(** ** [check_CPTP] *)

Definition check_CPTP {L : Libm} (matrices : list carray) : result unit :=
  terms ← comprehension (fun matrix =>
             matrix_T ← transpose matrix;
             dot (conj matrix_T) matrix) matrices;
  E ← sum terms;
  match E with
  | VArray E' =>
      identity ← eye_star (shape E');
      close ← allclose E' identity;
      if negb close then Raises (ValueError (msg_not_CPTP matrices)) else Returns tt
  | _ => Raises (AttributeError "shape") (* [E.shape] on the integer [0] *)
  end.

(** ** [get_matrix] *)

(** [_get_matrix]: the default raises, and three implementations are
    registered, for [GateOperation], [KrausOperation] and [Observable]. *)
Definition _get_matrix : generic :=
  register "Observable" (fun observable => getattr observable "diagonalizing_matrix")
    (register "KrausOperation" (fun kraus => getattr kraus "matrices")
       (register "GateOperation" (fun gate => getattr gate "matrix")
          (singledispatch (fun operation =>
             Raises (ValueError (msg_unrecognized_operation operation)))))).

Definition get_matrix (operation : value) : result value :=
  call _get_matrix operation.

(** ** Matrices of the examples *)

Definition matrix2 (a b c d : float64) : carray :=
  NdArray [2%nat; 2%nat]
    [C128.of_float a; C128.of_float b; C128.of_float c; C128.of_float d].
Arguments matrix2 (a b c d)%_float_scope.

Definition identity2 : carray := matrix2 1 0 0 1.
Definition pauli_x : carray := matrix2 0 1 1 0.
Definition pauli_z : carray := matrix2 1 0 0 (-1).
Definition shear : carray := matrix2 1 1 0 1.
Definition projector0 : carray := matrix2 1 0 0 0.
Definition projector1 : carray := matrix2 0 0 0 1.


(** ** The conditions of the specification *)

(** The entry of the identity matrix in row [i], column [j]. *)
Definition identity_entry (i j : nat) : complex128 :=
  if (i =? j)%nat then C128.one else C128.zero.

(** The entry of [M · Mᴴ] in row [i], column [j], for a matrix of side [n]:
    the sum over [l] of [M[i, l] · conj(M[j, l])]. *)
Definition times_adjoint (n : nat) (M : carray) (i j : nat) : complex128 :=
  fold_left (fun acc l => C128.add acc (C128.mul M.[i, l] (C128.conj M.[j, l])))
    (seq 0 n) C128.zero.

(** The entry of [Mᴴ · M] in row [i], column [j]: the sum over [l] of
    [conj(M[l, i]) · M[l, j]]. *)
Definition adjoint_times (n : nat) (M : carray) (i j : nat) : complex128 :=
  fold_left (fun acc l => C128.add acc (C128.mul (C128.conj M.[l, i]) M.[l, j]))
    (seq 0 n) C128.zero.

(** The entry of [E], the sum of [Mᴴ · M] over the list. *)
Definition kraus_sum (n : nat) (matrices : list carray) (i j : nat) : complex128 :=
  fold_left (fun acc M => C128.add acc (adjoint_times n M i j)) matrices C128.zero.

(** A square matrix of side [n]. *)
Definition square (n : nat) (M : carray) : Prop := shape M = [n; n].

(** [M · Mᴴ] equals the identity within the tolerance: every entry of the
    identity is close to the entry of the product. *)
Definition unitary_within_tolerance {L : Libm} (n : nat) (M : carray) : Prop :=
  forall i j : nat, (i < n)%nat -> (j < n)%nat ->
    isclose (identity_entry i j) (times_adjoint n M i j) = true.

(** [M] equals its conjugate transpose within the tolerance. *)
Definition hermitian_within_tolerance {L : Libm} (n : nat) (M : carray) : Prop :=
  forall i j : nat, (i < n)%nat -> (j < n)%nat ->
    isclose M.[i, j] (C128.conj M.[j, i]) = true.

(** [E] equals the identity within the tolerance. *)
Definition CPTP_within_tolerance {L : Libm} (n : nat) (matrices : list carray) : Prop :=
  forall i j : nat, (i < n)%nat -> (j < n)%nat ->
    isclose (kraus_sum n matrices i j) (identity_entry i j) = true.

Definition matrix_4x4 : carray := eye 4 4 0.
Definition matrix_2x3 : carray := NdArray [2%nat; 3%nat] (repeat C128.one 6).

(** The number decoded from a cell [[re, im]] of the IR representation. *)
Definition decode (element : list float64) : complex128 :=
  Complex (nth 0 element 0%float) (nth 1 element 0%float).

(** The terms of the sum in [check_CPTP]: one matrix [Mᴴ · M] for each
    matrix of the list. *)
Definition term (n : nat) (M : carray) : carray := tabulate n n (adjoint_times n M).

(** The IR representation of [[1+2j, 3+4j], [5+6j, 7+8j]]. *)
Definition ir_example : list (list (list float64)) :=
  [[[1; 2]; [3; 4]]; [[5; 6]; [7; 8]]]%float.

(** An instance of a gate class deriving from [GateOperation], a Kraus
    channel and an observable, with their matrices. *)
Definition pauli_x_gate : value :=
  VObject ["PauliX"; "GateOperation"; "Operation"; "ABC"; "object"]
    [("targets", VList [VInt 0]); ("matrix", VArray pauli_x)].

Definition dephasing_channel : value :=
  VObject ["Dephasing"; "KrausOperation"; "Operation"; "ABC"; "object"]
    [("matrices", VList [VArray projector0; VArray projector1])].

Definition identity_observable : value :=
  VObject ["PauliZ"; "Observable"; "Operation"; "ABC"; "object"]
    [("diagonalizing_matrix", VArray identity2)].

(** An instruction class with a registered constructor, a class deriving
    from it, and a constructor registered for the former. *)
Definition rotation_instruction : value :=
  VObject ["Rotation"; "BaseModel"; "object"] [("target", VInt 0)].

Definition derived_instruction : value :=
  VObject ["HalfTurn"; "Rotation"; "BaseModel"; "object"] [("target", VInt 0)].

Definition unknown_instruction : value :=
  VObject ["Unknown"; "BaseModel"; "object"] [("target", VInt 0)].

Definition rotation_constructors : gmap string (value -> result value) :=
  {[ "Rotation" := fun instruction => Returns pauli_x_gate ]}.

(** ** Further readings of the spectrum *)

(** The parity of the lowest [n] bits of [k]: [true] when an odd number of
    them is set. *)
Fixpoint parity (n k : nat) : bool :=
  match n with
  | O => false
  | S n' => xorb (Nat.testbit k n') (parity n' k)
  end.

(** The sum of the elements of an integer array. *)
Definition total (l : list Z) : Z := fold_right Z.add 0 l.

(** ** Matrices that are not square *)

(** The rows of an [r] by [c] matrix are orthonormal within the tolerance:
    every entry of the [r] by [r] identity is close to the entry of
    [M · Mᴴ], a sum of [c] products. *)
Definition rows_orthonormal_within_tolerance {L : Libm} (r c : nat) (M : carray) : Prop :=
  forall i j : nat, (i < r)%nat -> (j < r)%nat ->
    isclose (identity_entry i j) (times_adjoint c M i j) = true.

(** The entries of a matrix of one row agree with each other's conjugates
    within the tolerance. *)
Definition row_self_conjugate_within_tolerance {L : Libm} (c : nat) (M : carray) : Prop :=
  forall i j : nat, (i < c)%nat -> (j < c)%nat ->
    isclose M.[0, j] (C128.conj M.[0, i]) = true.

(** The 1x2 matrix [[1, 0]] and the 1x2 matrix [[1, 1]]. *)
Definition row_10 : carray := NdArray [1%nat; 2%nat] [C128.one; C128.zero].
Definition row_11 : carray := NdArray [1%nat; 2%nat] [C128.one; C128.one].

(** The matrix without rows and columns, [np.zeros((0, 0))]. *)
Definition matrix_0x0 : carray := NdArray [O; O] [].

(** The 3x3 identity. *)
Definition identity3 : carray := eye 3 3 0.

(** ** Numbers that are not numbers *)

(** A complex number one of whose parts is a NaN. *)
Definition has_nan (x : complex128) : bool :=
  PrimFloat.is_nan (real x) || PrimFloat.is_nan (imag x).

(** The 2x2 identity with a NaN in place of its first entry. *)
Definition nan_matrix : carray :=
  NdArray [2%nat; 2%nat]
    [C128.of_float PrimFloat.nan; C128.zero; C128.zero; C128.one].

(** The term of an [r] by [c] matrix in the sum of [check_CPTP]: the [c] by
    [c] matrix [Mᴴ · M], its entries sums of [r] products. *)
Definition term_matrix (r c : nat) (M : carray) : carray :=
  tabulate c c (adjoint_times r M).

(** The sum of [Mᴴ · M] over a list of [r] by [c] matrices equals the [c] by
    [c] identity within the tolerance. *)
Definition columns_complete_within_tolerance {L : Libm} (r c : nat) (matrices : list carray) : Prop :=
  forall i j : nat, (i < c)%nat -> (j < c)%nat ->
    isclose (kraus_sum r matrices i j) (identity_entry i j) = true.

(** The 2x1 matrices [[1], [0]] and [[0], [1]]. *)
Definition column_10 : carray := NdArray [2%nat; 1%nat] [C128.one; C128.zero].

(** * Properties *)

(** ** The spectrum *)

Lemma spectrum_length (k : nat) : length (spectrum k) = (2 ^ S k)%nat.
Proof.
  induction k as [|k IH]; [reflexivity|].
  cbn [spectrum]. rewrite length_app, length_map, IH.
  cbn [Nat.pow]. lia.
Qed.

Lemma spectrum_signs (k : nat) : Forall (fun x => x = 1 \/ x = -1) (spectrum k).
Proof.
  induction k as [|k IH]; cbn [spectrum].
  - do 2 (constructor; [auto|]). constructor.
  - apply Forall_app. split; [exact IH|].
    apply Forall_map. eapply Forall_impl; [exact IH|].
    cbn. intros x [->| ->]; auto.
Qed.

Lemma int64_neg_sign (x : Z) : x = 1 \/ x = -1 -> Int64.neg x = - x.
Proof. intros [->| ->]; reflexivity. Qed.

Lemma negative_spectrum (k : nat) :
  map Int64.neg (spectrum k) = map Z.opp (spectrum k).
Proof.
  apply map_ext_Forall. eapply Forall_impl; [apply spectrum_signs|].
  intros x Hx. by apply int64_neg_sign.
Qed.

Lemma spec_one : pauli_eigenvalues_spec 1 = array1 [1; -1].
Proof. reflexivity. Qed.

Lemma spec_step (n : Z) :
  1 < n ->
  concatenate2 (pauli_eigenvalues_spec (n - 1)) (negative (pauli_eigenvalues_spec (n - 1)))
  = Returns (pauli_eigenvalues_spec n).
Proof.
  intros Hn. unfold pauli_eigenvalues_spec, concatenate2, negative, array1. cbn [shape flat].
  replace (Z.to_nat (n - 1)) with (S (Z.to_nat (n - 1 - 1))) by lia.
  rewrite decide_True by reflexivity.
  cbn [spectrum]. rewrite negative_spectrum, length_app, length_map. reflexivity.
Qed.

(** ** The cache keeps its invariant *)

Lemma cache_find_ok (key : Z) (cache : lru_cache) (v : ndarray Z) :
  cache_ok cache -> cache_find key cache = Some v ->
  1 <= key /\ v = pauli_eigenvalues_spec key.
Proof.
  unfold cache_ok. induction 1 as [|[k w] cache [Hk Hw] _ IH]; cbn; [discriminate|].
  destruct (Z.eqb_spec k key) as [<-|_]; [|exact IH].
  intros [= <-]. auto.
Qed.

Lemma cache_find_below (key : Z) (cache : lru_cache) :
  cache_ok cache -> key < 1 -> cache_find key cache = None.
Proof.
  intros Hok Hlt. destruct (cache_find key cache) as [v|] eqn:E; [|reflexivity].
  destruct (cache_find_ok _ _ _ Hok E). lia.
Qed.

Lemma cache_remove_ok (key : Z) (cache : lru_cache) :
  cache_ok cache -> cache_ok (cache_remove key cache).
Proof.
  unfold cache_ok. induction 1 as [|[k w] cache H _ IH]; cbn; [constructor|].
  destruct (k =? key); [exact IH|]. by constructor.
Qed.

Lemma cache_touch_ok (key : Z) (cache : lru_cache) :
  1 <= key -> cache_ok cache ->
  cache_ok (cache_touch key (pauli_eigenvalues_spec key) cache).
Proof.
  intros Hk Hok. constructor; [by split|]. by apply cache_remove_ok.
Qed.

Lemma removelast_ok (cache : lru_cache) : cache_ok cache -> cache_ok (removelast cache).
Proof.
  unfold cache_ok. induction 1 as [|kv [|kv' cache] H Hrest IH]; cbn; try constructor; auto.
Qed.

Lemma cache_store_ok (key : Z) (cache : lru_cache) :
  1 <= key -> cache_ok cache ->
  cache_ok (cache_store key (pauli_eigenvalues_spec key) cache).
Proof.
  intros Hk Hok. unfold cache_store.
  destruct (cache_find key cache); [exact Hok|].
  destruct (maxsize <=? length cache)%nat; (constructor; [by split|]).
  - by apply removelast_ok.
  - exact Hok.
Qed.

(** ** [pauli_eigenvalues] on at least one qubit *)

Lemma pauli_eigenvalues_returns (depth : nat) :
  forall (n : Z) (cache : lru_cache),
    cache_ok cache -> 1 <= n -> (Z.to_nat n <= depth)%nat ->
    exists cache',
      pauli_eigenvalues depth n cache = (Returns (pauli_eigenvalues_spec n), cache')
      /\ cache_ok cache'.
Proof.
  induction depth as [|depth IH]; intros n cache Hok Hn Hdepth.
  - lia.
  - cbn [pauli_eigenvalues].
    destruct (cache_find n cache) as [v|] eqn:E.
    { destruct (cache_find_ok _ _ _ Hok E) as [_ ->].
      eexists. split; [reflexivity|]. by apply cache_touch_ok. }
    destruct (Z.eqb_spec n 1) as [->|Hne].
    { eexists. split; [reflexivity|]. by apply (cache_store_ok 1). }
    destruct (IH (n - 1) cache) as (cache1 & -> & Hok1); [done|lia|lia|].
    destruct (IH (n - 1) cache1) as (cache2 & -> & Hok2); [done|lia|lia|].
    rewrite spec_step by lia.
    eexists. split; [reflexivity|]. by apply cache_store_ok.
Qed.

(** C1. For every [n >= 1], every cache the function can have built and
    every recursion limit that leaves [n] frames, [pauli_eigenvalues n]
    returns the reference spectrum: [[1, -1]] for [n = 1], and for [n > 1]
    what [pauli_eigenvalues (n - 1)] returns followed by its element-wise
    negation. The array has the shape [(2^n,)] and holds [2^n] elements,
    each [+1] or [-1]; the cache keeps its invariant. *)
Theorem pauli_eigenvalues_reference (depth : nat) (n : Z) (cache : lru_cache) :
  cache_ok cache -> 1 <= n -> (Z.to_nat n <= depth)%nat ->
  exists (r : ndarray Z) (cache' : lru_cache),
    pauli_eigenvalues depth n cache = (Returns r, cache')
    /\ cache_ok cache'
    /\ r = pauli_eigenvalues_spec n
    /\ (n = 1 -> r = array1 [1; -1])
    /\ (1 < n ->
        forall (depth0 : nat) (cache0 : lru_cache),
          cache_ok cache0 -> (Z.to_nat (n - 1) <= depth0)%nat ->
          exists r0 : ndarray Z,
            (pauli_eigenvalues depth0 (n - 1) cache0).1 = Returns r0
            /\ concatenate2 r0 (negative r0) = Returns r
            /\ flat r = flat r0 ++ map Z.opp (flat r0))
    /\ shape r = [(2 ^ Z.to_nat n)%nat]
    /\ length (flat r) = (2 ^ Z.to_nat n)%nat
    /\ Forall (fun x => x = 1 \/ x = -1) (flat r).
Proof.
  intros Hok Hn Hdepth.
  destruct (pauli_eigenvalues_returns depth n cache Hok Hn Hdepth) as (cache' & Hrun & Hok').
  exists (pauli_eigenvalues_spec n), cache'.
  assert (Hlen : length (spectrum (Z.to_nat (n - 1))) = (2 ^ Z.to_nat n)%nat).
  { rewrite spectrum_length. f_equal. lia. }
  repeat split; try done.
  - by intros ->.
  - intros Hgt depth0 cache0 Hok0 Hdepth0.
    destruct (pauli_eigenvalues_returns depth0 (n - 1) cache0) as (c & -> & _); [done|lia|done|].
    exists (pauli_eigenvalues_spec (n - 1)). split; [reflexivity|].
    split; [by apply spec_step|].
    unfold pauli_eigenvalues_spec, array1. cbn [flat].
    by replace (Z.to_nat (n - 1)) with (S (Z.to_nat (n - 1 - 1))) by lia.
  - unfold pauli_eigenvalues_spec, array1. cbn [shape]. by rewrite Hlen.
  - apply spectrum_signs.
Qed.

Lemma pauli_eigenvalues_reference_witness :
  exists (r : ndarray Z) (cache' : lru_cache),
    pauli_eigenvalues 5 2 [] = (Returns r, cache')
    /\ cache_ok cache'
    /\ r = pauli_eigenvalues_spec 2
    /\ (2 = 1 -> r = array1 [1; -1])
    /\ (1 < 2 ->
        forall (depth0 : nat) (cache0 : lru_cache),
          cache_ok cache0 -> (Z.to_nat (2 - 1) <= depth0)%nat ->
          exists r0 : ndarray Z,
            (pauli_eigenvalues depth0 (2 - 1) cache0).1 = Returns r0
            /\ concatenate2 r0 (negative r0) = Returns r
            /\ flat r = flat r0 ++ map Z.opp (flat r0))
    /\ shape r = [(2 ^ Z.to_nat 2)%nat]
    /\ length (flat r) = (2 ^ Z.to_nat 2)%nat
    /\ Forall (fun x => x = 1 \/ x = -1) (flat r).
Proof.
  apply (pauli_eigenvalues_reference 5 2 []); [constructor | lia | simpl; lia].
Defined.

(** The two values the specification lists. *)
Example pauli_eigenvalues_1 :
  (pauli_eigenvalues 10 1 []).1 = Returns (NdArray [2%nat] [1; -1]).
Proof. reflexivity. Qed.

Example pauli_eigenvalues_2 :
  (pauli_eigenvalues 10 2 []).1 = Returns (NdArray [4%nat] [1; -1; -1; 1]).
Proof. reflexivity. Qed.

(** ** [pauli_eigenvalues] below one qubit *)

Lemma pauli_eigenvalues_no_base_case (depth : nat) :
  forall (n : Z) (cache : lru_cache),
    cache_ok cache -> n < 1 ->
    pauli_eigenvalues depth n cache = (Raises RecursionError, cache).
Proof.
  induction depth as [|depth IH]; intros n cache Hok Hn; cbn [pauli_eigenvalues];
    [reflexivity|].
  rewrite (cache_find_below n cache Hok Hn).
  destruct (Z.eqb_spec n 1) as [->|_]; [lia|].
  rewrite IH by (auto; lia). reflexivity.
Qed.

(** C2, as the code has it. For [n < 1] there is no guard: the argument is
    not [1], so the function calls itself on [n - 1], further from [1], and
    whatever the recursion limit, the call ends in [RecursionError]. It
    returns no array, raises no [ValueError] and stores nothing. *)
Theorem pauli_eigenvalues_below_one (depth : nat) (n : Z) (cache : lru_cache) :
  cache_ok cache -> n < 1 ->
  pauli_eigenvalues depth n cache = (Raises RecursionError, cache)
  /\ (forall r : ndarray Z, (pauli_eigenvalues depth n cache).1 <> Returns r)
  /\ (forall msg : message, (pauli_eigenvalues depth n cache).1 <> Raises (ValueError msg)).
Proof.
  intros Hok Hn. rewrite pauli_eigenvalues_no_base_case by done.
  repeat split; intros ?; discriminate.
Qed.

Lemma pauli_eigenvalues_below_one_witness :
  pauli_eigenvalues 1000 0 [] = (Raises RecursionError, [])
  /\ (forall r : ndarray Z, (pauli_eigenvalues 1000 0 []).1 <> Returns r)
  /\ (forall msg : message, (pauli_eigenvalues 1000 0 []).1 <> Raises (ValueError msg)).
Proof.
  apply (pauli_eigenvalues_below_one 1000 0 []); [constructor | lia].
Defined.

(** The claim as the specification words it fails at [n = 0]: whatever the
    recursion limit, the call ends in [RecursionError], which is not a
    [ValueError], with any message. *)
Lemma pauli_eigenvalues_zero_not_invalid_argument :
  (forall depth : nat, (pauli_eigenvalues depth 0 []).1 = Raises RecursionError)
  /\ ~ (exists (depth : nat) (msg : message),
          (pauli_eigenvalues depth 0 []).1 = Raises (ValueError msg)).
Proof.
  split.
  - intros depth. rewrite pauli_eigenvalues_no_base_case; [reflexivity | constructor | lia].
  - intros (depth & msg & H).
    rewrite pauli_eigenvalues_no_base_case in H; [discriminate | constructor | lia].
Qed.

(** ** Arrays built from their entries *)

Section Tabulate.
Context {A : Type}.

Lemma nth_map_seq (g : nat -> A) (d : A) (c j : nat) :
  (j < c)%nat -> nth j (map g (seq 0 c)) d = g j.
Proof.
  intros Hj. rewrite (nth_indep _ d (g O)) by (rewrite length_map, length_seq; lia).
  rewrite map_nth, seq_nth by lia. reflexivity.
Qed.

Lemma nth_rows (f : nat -> nat -> A) (d : A) (c r : nat) :
  forall s i j : nat,
    (i < r)%nat -> (j < c)%nat ->
    nth (i * c + j) (flat_map (fun i => map (f i) (seq 0 c)) (seq s r)) d = f (s + i)%nat j.
Proof.
  induction r as [|r IH]; intros s i j Hi Hj; [lia|].
  cbn [seq flat_map]. destruct i as [|i].
  - rewrite app_nth1 by (rewrite length_map, length_seq; lia).
    cbn [Nat.mul Nat.add]. rewrite nth_map_seq by lia. f_equal. lia.
  - replace (S i * c + j)%nat with (length (map (f s) (seq 0 c)) + (i * c + j))%nat
      by (rewrite length_map, length_seq; lia).
    rewrite app_nth2_plus, IH by lia. f_equal. lia.
Qed.

Lemma length_rows (f : nat -> nat -> A) (c r s : nat) :
  length (flat_map (fun i => map (f i) (seq 0 c)) (seq s r)) = (r * c)%nat.
Proof.
  revert s. induction r as [|r IH]; intros s; [reflexivity|].
  cbn [seq flat_map]. rewrite length_app, length_map, length_seq, IH. lia.
Qed.

Lemma shape_tabulate (r c : nat) (f : nat -> nat -> A) : shape (tabulate r c f) = [r; c].
Proof. reflexivity. Qed.

Lemma length_tabulate (r c : nat) (f : nat -> nat -> A) :
  length (flat (tabulate r c f)) = (r * c)%nat.
Proof. apply length_rows. Qed.

Lemma entry_tabulate (d : A) (r c : nat) (f : nat -> nat -> A) (i j : nat) :
  (i < r)%nat -> (j < c)%nat -> entry d (tabulate r c f) i j = f i j.
Proof. intros Hi Hj. unfold entry, tabulate. cbn [shape flat]. by rewrite nth_rows. Qed.

Lemma forallb_rows (p : A -> bool) (f : nat -> nat -> A) (c r s : nat) :
  forallb p (flat_map (fun i => map (f i) (seq 0 c)) (seq s r))
  = forallb (fun i => forallb (fun j => p (f i j)) (seq 0 c)) (seq s r).
Proof.
  revert s. induction r as [|r IH]; intros s; [reflexivity|].
  cbn [seq flat_map forallb]. rewrite forallb_app, IH. f_equal.
  generalize (seq 0 c). intros l. induction l as [|x l IHl]; [reflexivity|].
  cbn. by rewrite IHl.
Qed.

End Tabulate.

Lemma forallb_seq (q : nat -> bool) (n : nat) :
  forallb q (seq 0 n) = true <-> (forall i : nat, (i < n)%nat -> q i = true).
Proof.
  rewrite forallb_forall. split.
  - intros H i Hi. apply H, in_seq. lia.
  - intros H i Hi. apply in_seq in Hi. apply H. lia.
Qed.

(** A test of all entries, row by row, is a test of every entry. *)
Lemma forallb_seq2 (q : nat -> nat -> bool) (r c : nat) :
  forallb (fun i => forallb (q i) (seq 0 c)) (seq 0 r) = true
  <-> (forall i j : nat, (i < r)%nat -> (j < c)%nat -> q i j = true).
Proof.
  rewrite forallb_seq. split.
  - intros H i j Hi Hj. specialize (H i Hi). by apply forallb_seq with (i := j) in H.
  - intros H i Hi. apply forallb_seq. intros j Hj. by apply H.
Qed.

Lemma forallb_ext_seq (p q : nat -> bool) (n : nat) :
  (forall i : nat, (i < n)%nat -> p i = q i) -> forallb p (seq 0 n) = forallb q (seq 0 n).
Proof.
  intros H. assert (Hin : forall i, In i (seq 0 n) -> p i = q i).
  { intros i Hi. apply in_seq in Hi. apply H. lia. }
  clear H. induction (seq 0 n) as [|x l IH]; [reflexivity|].
  cbn. rewrite Hin by (left; reflexivity). f_equal. apply IH. intros i Hi. apply Hin. by right.
Qed.

Lemma fold_left_ext_seq {B : Type} (f g : B -> nat -> B) (n : nat) (b : B) :
  (forall (acc : B) (i : nat), (i < n)%nat -> f acc i = g acc i) ->
  fold_left f (seq 0 n) b = fold_left g (seq 0 n) b.
Proof.
  intros H. assert (Hin : forall acc i, In i (seq 0 n) -> f acc i = g acc i).
  { intros acc i Hi. apply in_seq in Hi. apply H. lia. }
  clear H. revert b. induction (seq 0 n) as [|x l IH]; intros b; [reflexivity|].
  cbn. rewrite Hin by (left; reflexivity). apply IH. intros acc i Hi. apply Hin. by right.
Qed.

Lemma stretch_lt (n i : nat) : (i < n)%nat -> stretch n i = i.
Proof. unfold stretch. destruct (Nat.eqb_spec n 1); lia. Qed.

Lemma broadcast_dim_same (n : nat) : broadcast_dim n n = Some n.
Proof. unfold broadcast_dim. by rewrite Nat.eqb_refl. Qed.

(** ** The numpy functions on matrices of equal shapes *)

Lemma elementwise_same {A : Type} (f : complex128 -> complex128 -> A) (a b : carray) (r c : nat) :
  shape a = [r; c] -> shape b = [r; c] ->
  elementwise f a b
  = Returns (tabulate r c (fun i j =>
      f a.[stretch r i, stretch c j] b.[stretch r i, stretch c j])).
Proof.
  intros Ha Hb. unfold elementwise. rewrite Ha, Hb, !broadcast_dim_same. reflexivity.
Qed.

Lemma allclose_same {L : Libm} (a b : carray) (r c : nat) :
  shape a = [r; c] -> shape b = [r; c] ->
  allclose a b
  = Returns (forallb (fun i => forallb (fun j => isclose a.[i, j] b.[i, j]) (seq 0 c)) (seq 0 r)).
Proof.
  intros Ha Hb. unfold allclose. rewrite (elementwise_same _ a b r c Ha Hb).
  cbn. f_equal. unfold tabulate. cbn [flat]. rewrite forallb_rows.
  apply forallb_ext_seq. intros i Hi. apply forallb_ext_seq. intros j Hj.
  by rewrite !stretch_lt.
Qed.

Lemma entry_add (a b e : carray) (r c i j : nat) :
  shape a = [r; c] -> shape b = [r; c] -> add a b = Returns e ->
  shape e = [r; c] /\ length (flat e) = (r * c)%nat
  /\ ((i < r)%nat -> (j < c)%nat -> e.[i, j] = C128.add a.[i, j] b.[i, j]).
Proof.
  intros Ha Hb. unfold add. rewrite (elementwise_same _ a b r c Ha Hb). intros [= <-].
  split; [reflexivity|]. split; [apply length_tabulate|].
  intros Hi Hj. rewrite entry_tabulate by done. by rewrite !stretch_lt.
Qed.

Lemma entry_conj (a : carray) (r c i j : nat) :
  shape a = [r; c] -> length (flat a) = (r * c)%nat -> (i < r)%nat -> (j < c)%nat ->
  (conj a).[i, j] = C128.conj a.[i, j].
Proof.
  intros Ha Hlen Hi Hj. unfold entry, conj. cbn [shape flat]. rewrite Ha.
  rewrite (nth_indep _ _ (C128.conj C128.zero)) by (rewrite length_map, Hlen; nia).
  apply map_nth.
Qed.

Lemma entry_eye (n m i j : nat) :
  (i < n)%nat -> (j < m)%nat ->
  (eye n m 0).[i, j] = if (i =? j)%nat then C128.one else C128.zero.
Proof.
  intros Hi Hj. unfold eye. rewrite entry_tabulate by done. by rewrite Nat.add_0_r.
Qed.

Lemma entry_transpose (a t : carray) (r c i j : nat) :
  shape a = [r; c] -> transpose a = Returns t ->
  shape t = [c; r] /\ length (flat t) = (c * r)%nat
  /\ ((i < c)%nat -> (j < r)%nat -> t.[i, j] = a.[j, i]).
Proof.
  intros Ha. unfold transpose. rewrite Ha. intros [= <-].
  split; [reflexivity|]. split; [apply length_tabulate|].
  intros Hi Hj. by rewrite entry_tabulate.
Qed.

Lemma tabulate_ext {A : Type} (r c : nat) (f g : nat -> nat -> A) :
  (forall i j : nat, (i < r)%nat -> (j < c)%nat -> f i j = g i j) ->
  tabulate r c f = tabulate r c g.
Proof.
  intros H. unfold tabulate. f_equal.
  assert (Hin : forall i, In i (seq 0 r) -> map (f i) (seq 0 c) = map (g i) (seq 0 c)).
  { intros i Hi. apply in_seq in Hi. apply map_ext_in. intros j Hj. apply in_seq in Hj.
    apply H; lia. }
  clear H. induction (seq 0 r) as [|x l IH]; [reflexivity|].
  cbn [flat_map]. rewrite Hin by (left; reflexivity). f_equal.
  apply IH. intros i Hi. apply Hin. by right.
Qed.

Lemma bind_returns {A B : Type} (a : A) (k : A -> result B) : (Returns a ≫= k) = k a.
Proof. reflexivity. Qed.

Lemma transpose_square (n : nat) (M : carray) :
  square n M -> transpose M = Returns (tabulate n n (fun i j => M.[j, i])).
Proof. intros HM. unfold transpose. by rewrite HM. Qed.

(** [M.dot(M.T.conj())] is the matrix of the entries [times_adjoint]. *)
Lemma dot_adjoint (n : nat) (M : carray) :
  square n M ->
  dot M (conj (tabulate n n (fun i j => M.[j, i])))
  = Returns (tabulate n n (times_adjoint n M)).
Proof.
  intros HM. unfold dot. rewrite HM. cbn [conj shape tabulate].
  rewrite Nat.eqb_refl. f_equal. apply tabulate_ext. intros i j Hi Hj.
  unfold dot_entry, times_adjoint. apply fold_left_ext_seq. intros acc l Hl.
  do 2 f_equal.
  rewrite (entry_conj _ n n) by (try apply length_tabulate; done).
  by rewrite entry_tabulate.
Qed.

(** [np.dot(M.T.conjugate(), M)] is the matrix of the entries [adjoint_times]. *)
Lemma adjoint_dot (n : nat) (M : carray) :
  square n M ->
  dot (conj (tabulate n n (fun i j => M.[j, i]))) M
  = Returns (tabulate n n (adjoint_times n M)).
Proof.
  intros HM. unfold dot. rewrite HM. cbn [conj shape tabulate].
  rewrite Nat.eqb_refl. f_equal. apply tabulate_ext. intros i j Hi Hj.
  unfold dot_entry, adjoint_times. apply fold_left_ext_seq. intros acc l Hl.
  do 2 f_equal.
  rewrite (entry_conj _ n n) by (try apply length_tabulate; done).
  by rewrite entry_tabulate.
Qed.

(** The two ends of a check: silence when the test holds, the error when
    it does not. *)
Lemma verdict (close : bool) (P : Prop) (e : exception) :
  (close = true <-> P) ->
  (P -> (if negb close then Raises e else Returns tt) = Returns tt)
  /\ (~ P -> (if negb close then Raises e else Returns tt) = Raises e).
Proof.
  destruct close; intros [H1 H2]; split; intros H; cbn; try reflexivity.
  - destruct H. by apply H1.
  - by specialize (H2 H).
Qed.

(** Two checks that differ in the test alone: the tests agree when they
    agree at every entry. *)
Ltac same_test :=
  match goal with
  | |- (if negb ?a then _ else _) = (if negb ?b then _ else _) =>
      let i := fresh "i" in let j := fresh "j" in
      let Hi := fresh "Hi" in let Hj := fresh "Hj" in
      replace a with b; [reflexivity|];
      apply forallb_ext_seq; intros i Hi; apply forallb_ext_seq; intros j Hj; symmetry
  end.

(** The checks on matrices of real numbers: the moduli are taken on the
    real axis, where [hypot] is the absolute value, and the rest is
    evaluated. *)
Ltac real_matrices H0 :=
  cbv -[hypot PrimFloat.leb PrimFloat.add PrimFloat.mul PrimFloat.abs];
  repeat match goal with
         | |- context [hypot ?x ?y] => rewrite (H0 x y eq_refl)
         end;
  vm_compute; reflexivity.

Lemma hypot_ref_of_zero : hypot_of_zero reference_libm.
Proof. intros x y Hy. cbn. unfold hypot_ref. by rewrite Hy. Qed.

(** ** [check_unitary] *)

Lemma check_unitary_test {L : Libm} (n : nat) (M : carray) :
  square n M ->
  check_unitary M
  = if negb (forallb (fun i => forallb (fun j =>
               isclose (identity_entry i j) (times_adjoint n M i j)) (seq 0 n)) (seq 0 n))
    then Raises (ValueError (msg_not_unitary M)) else Returns tt.
Proof.
  intros HM. unfold check_unitary, len. rewrite HM, bind_returns.
  rewrite (transpose_square n M HM), bind_returns.
  rewrite (dot_adjoint n M HM), bind_returns.
  rewrite (allclose_same _ _ n n) by reflexivity. rewrite bind_returns.
  same_test. by rewrite entry_eye, entry_tabulate.
Qed.

(** C3. On a square matrix [M], [check_unitary] returns [None] when
    [M · Mᴴ] equals the identity of the same size within the tolerance of
    [np.allclose], and raises [ValueError(f"{matrix} is not unitary")] when
    it does not, whatever the C library's [hypot] rounds to. It accepts the
    2x2 identity and the Pauli X matrix, and rejects [[1, 1], [0, 1]]: their
    entries are real, where [hypot] is the absolute value. *)
Theorem check_unitary_spec {L : Libm} :
  (forall (n : nat) (M : carray),
      square n M ->
      (unitary_within_tolerance n M -> check_unitary M = Returns tt)
      /\ (~ unitary_within_tolerance n M ->
          check_unitary M = Raises (ValueError (msg_not_unitary M))))
  /\ (hypot_of_zero L ->
      check_unitary identity2 = Returns tt
      /\ check_unitary pauli_x = Returns tt
      /\ check_unitary shear = Raises (ValueError (msg_not_unitary shear))).
Proof.
  split; [|intros H0; repeat split; real_matrices H0].
  intros n M HM. rewrite (check_unitary_test n M HM).
  apply verdict. apply forallb_seq2.
Qed.

Lemma check_unitary_spec_witness :
  square 2 pauli_x /\ unitary_within_tolerance 2 pauli_x
  /\ check_unitary pauli_x = Returns tt
  /\ hypot_of_zero reference_libm
  /\ check_unitary shear = Raises (ValueError (msg_not_unitary shear)).
Proof.
  assert (Hsq : square 2 pauli_x) by reflexivity.
  assert (Hun : unitary_within_tolerance 2 pauli_x).
  { refine (proj1 (forallb_seq2
      (fun i j => isclose (identity_entry i j) (times_adjoint 2 pauli_x i j)) 2 2) _).
    vm_compute. reflexivity. }
  split; [exact Hsq|]. split; [exact Hun|].
  split; [exact (proj1 (proj1 check_unitary_spec 2%nat pauli_x Hsq) Hun)|].
  split; [exact hypot_ref_of_zero|].
  exact (proj2 (proj2 (proj2 check_unitary_spec hypot_ref_of_zero))).
Defined.

(** ** [check_hermitian] *)

Lemma check_hermitian_test {L : Libm} (n : nat) (M : carray) :
  square n M ->
  check_hermitian M
  = if negb (forallb (fun i => forallb (fun j =>
               isclose M.[i, j] (C128.conj M.[j, i])) (seq 0 n)) (seq 0 n))
    then Raises (ValueError (msg_not_hermitian M)) else Returns tt.
Proof.
  intros HM. unfold check_hermitian.
  rewrite (transpose_square n M HM), bind_returns.
  rewrite (allclose_same _ _ n n) by done. rewrite bind_returns.
  same_test.
  rewrite (entry_conj _ n n) by (try apply length_tabulate; done).
  by rewrite entry_tabulate.
Qed.

(** C9. On a square matrix [M], [check_hermitian] returns [None] when [M]
    equals its conjugate transpose within the tolerance of [np.allclose],
    and raises [ValueError(f"{matrix} is not Hermitian")] when it does not,
    whatever the C library's [hypot] rounds to. It accepts [[1, 0], [0, -1]]
    and rejects [[1, 1], [0, 1]]: their entries are real, where [hypot] is
    the absolute value. *)
Theorem check_hermitian_spec {L : Libm} :
  (forall (n : nat) (M : carray),
      square n M ->
      (hermitian_within_tolerance n M -> check_hermitian M = Returns tt)
      /\ (~ hermitian_within_tolerance n M ->
          check_hermitian M = Raises (ValueError (msg_not_hermitian M))))
  /\ (hypot_of_zero L ->
      check_hermitian pauli_z = Returns tt
      /\ check_hermitian shear = Raises (ValueError (msg_not_hermitian shear))).
Proof.
  split; [|intros H0; repeat split; real_matrices H0].
  intros n M HM. rewrite (check_hermitian_test n M HM).
  apply verdict. apply forallb_seq2.
Qed.

Lemma check_hermitian_spec_witness :
  square 2 pauli_z /\ hermitian_within_tolerance 2 pauli_z
  /\ check_hermitian pauli_z = Returns tt
  /\ hypot_of_zero reference_libm
  /\ check_hermitian shear = Raises (ValueError (msg_not_hermitian shear)).
Proof.
  assert (Hsq : square 2 pauli_z) by reflexivity.
  assert (Hh : hermitian_within_tolerance 2 pauli_z).
  { refine (proj1 (forallb_seq2
      (fun i j => isclose pauli_z.[i, j] (C128.conj pauli_z.[j, i])) 2 2) _).
    vm_compute. reflexivity. }
  split; [exact Hsq|]. split; [exact Hh|].
  split; [exact (proj1 (proj1 check_hermitian_spec 2%nat pauli_z Hsq) Hh)|].
  split; [exact hypot_ref_of_zero|].
  exact (proj2 (proj2 check_hermitian_spec hypot_ref_of_zero)).
Defined.

(** ** [check_CPTP] *)

Lemma comprehension_terms (n : nat) (matrices : list carray) :
  Forall (square n) matrices ->
  comprehension (fun matrix => matrix_T ← transpose matrix; dot (conj matrix_T) matrix) matrices
  = Returns (map (term n) matrices).
Proof.
  induction 1 as [|M matrices HM _ IH]; [reflexivity|].
  cbn [comprehension map].
  rewrite (transpose_square n M HM), bind_returns, (adjoint_dot n M HM), bind_returns.
  by rewrite IH.
Qed.

Lemma entry_zero_plus (a : carray) (r c i j : nat) :
  shape a = [r; c] -> (zero_plus a).[i, j] = C128.add C128.zero a.[i, j].
Proof.
  intros Ha. unfold entry, zero_plus. cbn [shape flat]. rewrite Ha.
  transitivity (nth (i * c + j) (map (C128.add C128.zero) (flat a))
                  (C128.add C128.zero C128.zero)); [reflexivity|].
  apply map_nth.
Qed.

Lemma sum_from_entries (n : nat) (matrices : list carray) :
  forall acc : carray,
    shape acc = [n; n] ->
    exists E : carray,
      sum_from acc (map (term n) matrices) = Returns E
      /\ shape E = [n; n]
      /\ (forall i j : nat, (i < n)%nat -> (j < n)%nat ->
            E.[i, j]
            = fold_left (fun x M => C128.add x (adjoint_times n M i j)) matrices acc.[i, j]).
Proof.
  induction matrices as [|M matrices IH]; intros acc Hacc.
  - exists acc. by repeat split.
  - cbn [map sum_from].
    destruct (add acc (term n M)) as [e| |] eqn:Hadd;
      try (unfold add in Hadd; rewrite (elementwise_same _ _ _ n n) in Hadd by done; discriminate).
    rewrite bind_returns.
    destruct (entry_add acc (term n M) e n n 0 0 Hacc eq_refl Hadd) as (He & _ & _).
    destruct (IH e He) as (E & -> & HE & Hentries).
    exists E. repeat split; [done|].
    intros i j Hi Hj. rewrite (Hentries i j Hi Hj). cbn [fold_left].
    destruct (entry_add acc (term n M) e n n i j Hacc eq_refl Hadd) as (_ & _ & ->); [|done..].
    unfold term. by rewrite entry_tabulate.
Qed.

Lemma check_CPTP_test {L : Libm} (n : nat) (matrices : list carray) :
  matrices <> [] -> Forall (square n) matrices ->
  check_CPTP matrices
  = if negb (forallb (fun i => forallb (fun j =>
               isclose (kraus_sum n matrices i j) (identity_entry i j)) (seq 0 n)) (seq 0 n))
    then Raises (ValueError (msg_not_CPTP matrices)) else Returns tt.
Proof.
  intros Hne Hsq. unfold check_CPTP.
  rewrite (comprehension_terms n matrices Hsq), bind_returns.
  destruct matrices as [|M matrices]; [done|]. clear Hne.
  cbn [map sum].
  destruct (sum_from_entries n matrices (zero_plus (term n M)) eq_refl) as (E & -> & HE & Hentries).
  rewrite !bind_returns, HE. cbn [eye_star]. rewrite bind_returns.
  rewrite (allclose_same _ _ n n) by done. rewrite bind_returns.
  same_test. rewrite entry_eye, Hentries by done.
  rewrite (entry_zero_plus _ n n) by done.
  unfold term. by rewrite entry_tabulate.
Qed.

(** C4. On a non-empty list of square matrices of one shape,
    [check_CPTP] returns [None] when [E], the sum of [Mᴴ · M] over the
    list, equals the identity of its shape within the tolerance of
    [np.allclose], and raises [ValueError(f"{matrices} does not satisfy
    CPTP")] when it does not, whatever the C library's [hypot] rounds to.
    It accepts the list of the 2x2 identity, rejects the list of
    [[1, 0], [0, 0]], and accepts that matrix followed by [[0, 0], [0, 1]]:
    their entries are real, where [hypot] is the absolute value. *)
Theorem check_CPTP_spec {L : Libm} :
  (forall (n : nat) (matrices : list carray),
      matrices <> [] -> Forall (square n) matrices ->
      (CPTP_within_tolerance n matrices -> check_CPTP matrices = Returns tt)
      /\ (~ CPTP_within_tolerance n matrices ->
          check_CPTP matrices = Raises (ValueError (msg_not_CPTP matrices))))
  /\ (hypot_of_zero L ->
      check_CPTP [identity2] = Returns tt
      /\ check_CPTP [projector0] = Raises (ValueError (msg_not_CPTP [projector0]))
      /\ check_CPTP [projector0; projector1] = Returns tt).
Proof.
  split; [|intros H0; repeat split; real_matrices H0].
  intros n matrices Hne Hsq. rewrite (check_CPTP_test n matrices Hne Hsq).
  apply verdict. apply forallb_seq2.
Qed.

Lemma check_CPTP_spec_witness :
  [projector0; projector1] <> [] /\ Forall (square 2) [projector0; projector1]
  /\ CPTP_within_tolerance 2 [projector0; projector1]
  /\ check_CPTP [projector0; projector1] = Returns tt
  /\ hypot_of_zero reference_libm
  /\ check_CPTP [projector0] = Raises (ValueError (msg_not_CPTP [projector0])).
Proof.
  assert (Hne : [projector0; projector1] <> []) by discriminate.
  assert (Hsq : Forall (square 2) [projector0; projector1]) by (repeat constructor).
  assert (Hc : CPTP_within_tolerance 2 [projector0; projector1]).
  { refine (proj1 (forallb_seq2 (fun i j =>
      isclose (kraus_sum 2 [projector0; projector1] i j) (identity_entry i j)) 2 2) _).
    vm_compute. reflexivity. }
  split; [exact Hne|]. split; [exact Hsq|]. split; [exact Hc|].
  split; [exact (proj1 (proj1 check_CPTP_spec 2%nat [projector0; projector1] Hne Hsq) Hc)|].
  split; [exact hypot_ref_of_zero|].
  exact (proj1 (proj2 (proj2 check_CPTP_spec hypot_ref_of_zero))).
Defined.

(** C10. On the empty list the sum is the integer [0], not a matrix;
    reading [E.shape] raises [AttributeError], before any comparison is
    made. So [check_CPTP] does not return on the empty list, and the error
    is no [ValueError], with any message. *)
Theorem check_CPTP_empty {L : Libm} :
  sum [] = Returns (VInt 0)
  /\ check_CPTP [] = Raises (AttributeError "shape")
  /\ check_CPTP [] <> Returns tt
  /\ (forall msg : message, check_CPTP [] <> Raises (ValueError msg)).
Proof. repeat split; try reflexivity; intros; discriminate. Qed.

(** ** [check_matrix_dimensions] *)

(** C5. [check_matrix_dimensions] raises [ValueError(f"{matrix} is not a
    two-dimensional square matrix")] when the matrix does not have a shape
    [(n, n)], whatever the targets; on a square matrix of side [n] it raises
    [ValueError] with the dimension message when [n] is not [2 ** len(targets)],
    and returns [None] when it is. A 2x3 matrix is refused for its shape with
    any targets, and a 4x4 matrix with one target for its dimension. *)
Theorem check_matrix_dimensions_spec :
  (forall (M : carray) (targets : list Z),
      ((forall n : nat, shape M <> [n; n]) ->
       check_matrix_dimensions M targets = Raises (ValueError (msg_not_square M)))
      /\ (forall n : nat, shape M = [n; n] -> n <> (2 ^ length targets)%nat ->
           check_matrix_dimensions M targets
           = Raises (ValueError (msg_wrong_dimension n (2 ^ length targets))))
      /\ (forall n : nat, shape M = [n; n] -> n = (2 ^ length targets)%nat ->
           check_matrix_dimensions M targets = Returns tt))
  /\ (forall targets : list Z,
        check_matrix_dimensions matrix_2x3 targets
        = Raises (ValueError (msg_not_square matrix_2x3)))
  /\ (forall target : Z,
        check_matrix_dimensions matrix_4x4 [target]
        = Raises (ValueError (msg_wrong_dimension 4 2))).
Proof.
  split; [|split; reflexivity].
  intros M targets. unfold check_matrix_dimensions. repeat split.
  - intros Hshape. destruct (shape M) as [|a [|b [|c sh]]]; try reflexivity.
    cbn. destruct (Nat.eqb_spec a b) as [->|Hne]; [|reflexivity].
    by destruct (Hshape b).
  - intros n -> Hn. cbn. rewrite Nat.eqb_refl. cbn.
    destruct (Nat.eqb_spec (2 ^ length targets) n) as [<-|_]; [done|reflexivity].
  - intros n -> ->. cbn. by rewrite !Nat.eqb_refl.
Qed.

Lemma check_matrix_dimensions_spec_witness :
  shape matrix_4x4 = [4; 4]%nat /\ 4%nat = (2 ^ length [0; 1])%nat
  /\ check_matrix_dimensions matrix_4x4 [0; 1] = Returns tt.
Proof.
  split; [reflexivity|]. split; [reflexivity|].
  exact (proj2 (proj2 (proj1 check_matrix_dimensions_spec matrix_4x4 [0; 1]))
           4%nat eq_refl eq_refl).
Defined.

Example check_matrix_dimensions_two_qubits :
  check_matrix_dimensions matrix_4x4 [0; 1] = Returns tt.
Proof. reflexivity. Qed.

Example check_matrix_dimensions_vector :
  check_matrix_dimensions (array1 [C128.one; C128.zero]) [0]
  = Raises (ValueError (msg_not_square (array1 [C128.one; C128.zero]))).
Proof. reflexivity. Qed.

(** ** [ir_matrix_to_ndarray] *)

Lemma decode_row (row : list (list float64)) :
  Forall (fun element => length element = 2%nat) row ->
  comprehension (fun element =>
    re ← getitem element 0; im ← getitem element 1; Returns (Complex re im)) row
  = Returns (map decode row).
Proof.
  induction 1 as [|element row Hlen _ IH]; [reflexivity|].
  cbn [comprehension map]. rewrite IH.
  destruct element as [|x [|y [|z element]]]; try discriminate. reflexivity.
Qed.

Lemma decode_rows (matrix : list (list (list float64))) :
  Forall (Forall (fun element => length element = 2%nat)) matrix ->
  comprehension (fun row =>
    comprehension (fun element =>
      re ← getitem element 0; im ← getitem element 1; Returns (Complex re im)) row) matrix
  = Returns (map (map decode) matrix).
Proof.
  induction 1 as [|row matrix Hrow _ IH]; [reflexivity|].
  cbn [comprehension map]. by rewrite (decode_row row Hrow), bind_returns, IH.
Qed.

(** The entries of the rows, read from their concatenation. *)
Lemma nth_concat {A : Type} (d : A) (c : nat) (rows : list (list A)) :
  Forall (fun row => length row = c) rows ->
  forall i j : nat,
    (i < length rows)%nat -> (j < c)%nat ->
    nth (i * c + j) (concat rows) d = nth j (nth i rows []) d.
Proof.
  induction 1 as [|row rows Hrow _ IH]; intros i j Hi Hj; cbn in Hi; [lia|].
  cbn [concat]. destruct i as [|i].
  - rewrite app_nth1 by lia. reflexivity.
  - replace (S i * c + j)%nat with (length row + (i * c + j))%nat by lia.
    rewrite app_nth2_plus. apply IH; lia.
Qed.

Lemma length_concat_rows {A : Type} (c : nat) (rows : list (list A)) :
  Forall (fun row => length row = c) rows -> length (concat rows) = (length rows * c)%nat.
Proof.
  induction 1 as [|row rows Hrow _ IH]; [reflexivity|].
  cbn [concat length]. rewrite length_app, IH, Hrow. lia.
Qed.

Lemma array2_rows {A : Type} (c : nat) (rows : list (list A)) :
  rows <> [] -> Forall (fun row => length row = c) rows ->
  array2 rows = Returns (NdArray [length rows; c] (concat rows)).
Proof.
  intros Hne Hrows. destruct rows as [|row rows]; [done|]. unfold array2.
  assert (Hc : length row = c) by (by inversion Hrows).
  rewrite Hc. replace (forallb _ _) with true; [reflexivity|].
  symmetry. apply forallb_forall. intros row' Hin.
  rewrite Forall_forall in Hrows. apply Nat.eqb_eq, Hrows. by apply list_elem_of_In.
Qed.

(** C8. On the rows of a matrix ([r] rows of [c] cells each, every cell a
    pair [[re, im]]), [ir_matrix_to_ndarray] returns an array of [r * c]
    complex numbers, of the shape [(r, c)] when there is a row, whose entry
    in row [i], column [j] is [complex(matrix[i][j][0], matrix[i][j][1])]:
    the rows and the columns keep their order. *)
Theorem ir_matrix_to_ndarray_entries (matrix : list (list (list float64))) (r c : nat) :
  length matrix = r ->
  Forall (fun row => length row = c) matrix ->
  Forall (Forall (fun element => length element = 2%nat)) matrix ->
  exists a : carray,
    ir_matrix_to_ndarray matrix = Returns a
    /\ ((0 < r)%nat -> shape a = [r; c])
    /\ length (flat a) = (r * c)%nat
    /\ (forall i j : nat, (i < r)%nat -> (j < c)%nat ->
          exists (row : list (list float64)) (x y : float64),
            nth_error matrix i = Some row
            /\ nth_error row j = Some [x; y]
            /\ a.[i, j] = Complex x y).
Proof.
  intros Hr Hrows Hcells. unfold ir_matrix_to_ndarray.
  rewrite (decode_rows matrix Hcells), bind_returns.
  destruct (Nat.eq_dec r 0%nat) as [->|Hpos].
  { apply length_zero_iff_nil in Hr. subst matrix.
    eexists. split; [reflexivity|]. repeat split; intros; lia. }
  assert (Hrows' : Forall (fun row => length row = c) (map (map decode) matrix)).
  { apply Forall_map. eapply Forall_impl; [exact Hrows|]. intros row Hrow. cbn.
    by rewrite length_map. }
  assert (Hne : map (map decode) matrix <> []).
  { destruct matrix; [cbn in Hr; lia|discriminate]. }
  rewrite (array2_rows c _ Hne Hrows').
  rewrite length_map, Hr. eexists. split; [reflexivity|]. split; [reflexivity|].
  split.
  { cbn [flat]. by rewrite (length_concat_rows c _ Hrows'), length_map, Hr. }
  intros i j Hi Hj.
  destruct (nth_error matrix i) as [row|] eqn:Erow;
    [|apply nth_error_None in Erow; lia].
  assert (Hrow : length row = c).
  { rewrite Forall_forall in Hrows. apply Hrows, list_elem_of_In. by eapply nth_error_In. }
  destruct (nth_error row j) as [element|] eqn:Eel;
    [|apply nth_error_None in Eel; lia].
  assert (Hel : length element = 2%nat).
  { rewrite Forall_forall in Hcells.
    assert (Hin : row ∈ matrix) by (apply list_elem_of_In; by eapply nth_error_In).
    specialize (Hcells row Hin). rewrite Forall_forall in Hcells.
    apply Hcells, list_elem_of_In. by eapply nth_error_In. }
  destruct element as [|x [|y [|z element]]]; try discriminate.
  exists row, x, y. do 2 (split; [done|]).
  unfold entry. cbn [shape flat].
  rewrite (nth_concat _ c) by (try done; rewrite length_map; lia).
  change (@nil complex128) with (map decode []).
  rewrite map_nth.
  change C128.zero with (decode []).
  rewrite map_nth.
  rewrite (nth_error_nth _ _ _ Erow), (nth_error_nth _ _ _ Eel). reflexivity.
Qed.

Lemma ir_matrix_to_ndarray_entries_witness :
  exists a : carray,
    ir_matrix_to_ndarray ir_example = Returns a
    /\ ((0 < 2)%nat -> shape a = [2; 2]%nat)
    /\ length (flat a) = (2 * 2)%nat
    /\ (forall i j : nat, (i < 2)%nat -> (j < 2)%nat ->
          exists (row : list (list float64)) (x y : float64),
            nth_error ir_example i = Some row
            /\ nth_error row j = Some [x; y]
            /\ a.[i, j] = Complex x y).
Proof.
  apply (ir_matrix_to_ndarray_entries ir_example 2 2);
    [reflexivity | repeat constructor | repeat constructor].
Defined.

Example ir_matrix_to_ndarray_example :
  ir_matrix_to_ndarray ir_example
  = Returns (NdArray [2; 2]%nat [Complex 1 2; Complex 3 4; Complex 5 6; Complex 7 8]).
Proof. reflexivity. Qed.

(** No rows give an empty array of one axis, and a cell that is too short
    an [IndexError]. *)
Example ir_matrix_to_ndarray_no_rows :
  ir_matrix_to_ndarray [] = Returns (NdArray [0%nat] []).
Proof. reflexivity. Qed.

Example ir_matrix_to_ndarray_short_cell :
  ir_matrix_to_ndarray [[[1%float]]] = Raises IndexError.
Proof. reflexivity. Qed.

(** ** Dispatch on the class of the argument *)

Section Dispatch.
Implicit Types (reg : gmap string (value -> result value)) (mro : list string).

Lemma find_impl_none reg mro :
  (forall cls : string, cls ∈ mro -> reg !! cls = None) -> find_impl reg mro = None.
Proof.
  induction mro as [|cls mro IH]; intros H; [reflexivity|].
  cbn [find_impl]. rewrite (H cls) by left. apply IH. intros c Hc. apply H. by right.
Qed.

(** The first class of the order that has an implementation decides. *)
Lemma find_impl_first reg mro (cls : string) (impl : value -> result value) :
  cls ∈ mro -> reg !! cls = Some impl ->
  (forall c : string, c ∈ mro -> c <> cls -> reg !! c = None) ->
  find_impl reg mro = Some impl.
Proof.
  induction mro as [|c mro IH]; intros Hin Hcls Hothers; [by apply elem_of_nil in Hin|].
  cbn [find_impl]. destruct (decide (c = cls)) as [->|Hne].
  - by rewrite Hcls.
  - rewrite (Hothers c) by (done || left).
    apply IH; [|done|].
    + apply elem_of_cons in Hin as [->|Hin]; done.
    + intros c' Hc'. apply Hothers. by right.
Qed.

End Dispatch.

Lemma registry_get_matrix (cls : string) :
  registry _get_matrix !! cls
  = if decide (cls = "Observable") then
      Some (fun observable => getattr observable "diagonalizing_matrix")
    else if decide (cls = "KrausOperation") then
      Some (fun kraus => getattr kraus "matrices")
    else if decide (cls = "GateOperation") then
      Some (fun gate => getattr gate "matrix")
    else None.
Proof.
  unfold _get_matrix, register, singledispatch. cbn [registry fallback].
  repeat case_decide; subst; simplify_map_eq; reflexivity.
Qed.

(** ** [get_matrix] *)

Lemma getattr_returns (obj : value) (name : string) (v : value) :
  attribute obj name = Some v -> getattr obj name = Returns v.
Proof. intros H. unfold getattr. by rewrite H. Qed.

(** The implementation [get_matrix] calls on an instance of [cls], one of
    the three registered classes, that is an instance of no other of them. *)
Lemma get_matrix_calls (operation : value) (cls : string) (impl : value -> result value) :
  registry _get_matrix !! cls = Some impl ->
  isinstance operation cls ->
  (forall c : string, isinstance operation c -> c <> cls -> registry _get_matrix !! c = None) ->
  get_matrix operation = impl operation.
Proof.
  intros Himpl Hinst Hothers. unfold get_matrix, call, dispatch.
  by rewrite (find_impl_first _ _ cls impl Hinst Himpl Hothers).
Qed.

(** C6. [get_matrix] serves the three kinds of operation and nothing else
    (each value being an instance of at most one of [GateOperation],
    [KrausOperation] and [Observable]): it returns the [matrix] of a
    [GateOperation], the [matrices] of a [KrausOperation], the
    [diagonalizing_matrix] of an [Observable], and on a value that is an
    instance of none of the three it raises
    [ValueError(f"Unrecognized operation: {operation}")]. *)
Theorem get_matrix_variants (operation : value) :
  (forall m : value,
      isinstance operation "GateOperation" ->
      ~ isinstance operation "KrausOperation" -> ~ isinstance operation "Observable" ->
      attribute operation "matrix" = Some m ->
      get_matrix operation = Returns m)
  /\ (forall ms : value,
        isinstance operation "KrausOperation" ->
        ~ isinstance operation "GateOperation" -> ~ isinstance operation "Observable" ->
        attribute operation "matrices" = Some ms ->
        get_matrix operation = Returns ms)
  /\ (forall d : value,
        isinstance operation "Observable" ->
        ~ isinstance operation "GateOperation" -> ~ isinstance operation "KrausOperation" ->
        attribute operation "diagonalizing_matrix" = Some d ->
        get_matrix operation = Returns d)
  /\ (~ isinstance operation "GateOperation" ->
      ~ isinstance operation "KrausOperation" -> ~ isinstance operation "Observable" ->
      get_matrix operation = Raises (ValueError (msg_unrecognized_operation operation))).
Proof.
  repeat split.
  - intros m Hg Hk Ho Hattr. rewrite <- (getattr_returns _ _ _ Hattr).
    apply (get_matrix_calls operation "GateOperation" (fun gate => getattr gate "matrix")); [by rewrite registry_get_matrix|done|].
    intros c Hc Hne. rewrite registry_get_matrix. repeat case_decide; subst; (done || congruence).
  - intros ms Hk Hg Ho Hattr. rewrite <- (getattr_returns _ _ _ Hattr).
    apply (get_matrix_calls operation "KrausOperation" (fun kraus => getattr kraus "matrices")); [by rewrite registry_get_matrix|done|].
    intros c Hc Hne. rewrite registry_get_matrix. repeat case_decide; subst; (done || congruence).
  - intros d Ho Hg Hk Hattr. rewrite <- (getattr_returns _ _ _ Hattr).
    apply (get_matrix_calls operation "Observable"
             (fun observable => getattr observable "diagonalizing_matrix")); [by rewrite registry_get_matrix|done|].
    intros c Hc Hne. rewrite registry_get_matrix. repeat case_decide; subst; (done || congruence).
  - intros Hg Hk Ho. unfold get_matrix, call, dispatch.
    rewrite find_impl_none; [reflexivity|].
    intros c Hc. rewrite registry_get_matrix. repeat case_decide; subst; (done || congruence).
Qed.

Lemma get_matrix_variants_witness :
  isinstance pauli_x_gate "GateOperation"
  /\ ~ isinstance pauli_x_gate "KrausOperation"
  /\ ~ isinstance pauli_x_gate "Observable"
  /\ attribute pauli_x_gate "matrix" = Some (VArray pauli_x)
  /\ get_matrix pauli_x_gate = Returns (VArray pauli_x).
Proof.
  assert (Hg : isinstance pauli_x_gate "GateOperation")
    by (apply list_elem_of_In; cbn; tauto).
  assert (Hk : ~ isinstance pauli_x_gate "KrausOperation").
  { intros H. apply list_elem_of_In in H. cbn in H. intuition discriminate. }
  assert (Ho : ~ isinstance pauli_x_gate "Observable").
  { intros H. apply list_elem_of_In in H. cbn in H. intuition discriminate. }
  split; [exact Hg|]. split; [exact Hk|]. split; [exact Ho|]. split; [reflexivity|].
  exact (proj1 (get_matrix_variants pauli_x_gate) (VArray pauli_x) Hg Hk Ho eq_refl).
Defined.

Example get_matrix_kraus :
  get_matrix dephasing_channel = Returns (VList [VArray projector0; VArray projector1]).
Proof. vm_compute. reflexivity. Qed.

Example get_matrix_observable :
  get_matrix identity_observable = Returns (VArray identity2).
Proof. vm_compute. reflexivity. Qed.

Example get_matrix_int :
  get_matrix (VInt 3) = Raises (ValueError (msg_unrecognized_operation (VInt 3))).
Proof. vm_compute. reflexivity. Qed.

Example get_matrix_instruction :
  get_matrix rotation_instruction
  = Raises (ValueError (msg_unrecognized_operation rotation_instruction)).
Proof. vm_compute. reflexivity. Qed.

(** ** [from_braket_instruction] *)

(** C7, as the code has it. When neither the class of the instruction nor
    any class it derives from has a registered constructor,
    [from_braket_instruction] raises
    [ValueError(f"Instruction {instruction} not recognized")] and returns no
    operation. *)
Theorem from_braket_instruction_unregistered
  (constructors : gmap string (value -> result value)) (instruction : value) :
  (forall cls : string, isinstance instruction cls -> constructors !! cls = None) ->
  from_braket_instruction constructors instruction
  = Raises (ValueError (msg_instruction_not_recognized instruction)).
Proof.
  intros H. unfold from_braket_instruction, call, dispatch, _from_braket_instruction.
  cbn [registry fallback]. by rewrite (find_impl_none _ _ H).
Qed.

Lemma from_braket_instruction_unregistered_witness :
  (forall cls : string,
      isinstance unknown_instruction cls -> rotation_constructors !! cls = None)
  /\ from_braket_instruction rotation_constructors unknown_instruction
     = Raises (ValueError (msg_instruction_not_recognized unknown_instruction)).
Proof.
  assert (H : forall cls : string,
             isinstance unknown_instruction cls -> rotation_constructors !! cls = None).
  { intros cls Hcls. apply list_elem_of_In in Hcls. cbn in Hcls.
    apply lookup_singleton_ne. intuition (subst; discriminate). }
  split; [exact H|].
  exact (from_braket_instruction_unregistered rotation_constructors unknown_instruction H).
Defined.

Lemma from_braket_instruction_derived :
  from_braket_instruction rotation_constructors derived_instruction = Returns pauli_x_gate.
Proof.
  unfold from_braket_instruction, call, dispatch, _from_braket_instruction.
  cbn [registry fallback type_of derived_instruction find_impl].
  unfold rotation_constructors.
  rewrite lookup_singleton_ne by discriminate. by rewrite lookup_singleton_eq.
Qed.

(** The claim as the specification words it fails on an instruction whose
    own class has no constructor while a class it derives from has one:
    the call is served by that constructor and returns an operation. *)
Lemma from_braket_instruction_inherited :
  head (type_of derived_instruction) = Some "HalfTurn"
  /\ rotation_constructors !! "HalfTurn" = None
  /\ from_braket_instruction rotation_constructors derived_instruction = Returns pauli_x_gate
  /\ ~ (forall (constructors : gmap string (value -> result value))
               (instruction : value) (cls : string),
           head (type_of instruction) = Some cls ->
           constructors !! cls = None ->
           from_braket_instruction constructors instruction
           = Raises (ValueError (msg_instruction_not_recognized instruction))).
Proof.
  assert (Hnone : rotation_constructors !! "HalfTurn" = None)
    by (by apply lookup_singleton_ne).
  split; [reflexivity|]. split; [exact Hnone|].
  split; [exact from_braket_instruction_derived|].
  intros H.
  specialize (H rotation_constructors derived_instruction "HalfTurn" eq_refl Hnone).
  rewrite from_braket_instruction_derived in H. discriminate.
Qed.

Example from_braket_instruction_registered :
  from_braket_instruction rotation_constructors rotation_instruction = Returns pauli_x_gate.
Proof.
  unfold from_braket_instruction, call, dispatch, _from_braket_instruction.
  cbn [registry fallback type_of rotation_instruction find_impl].
  unfold rotation_constructors. by rewrite lookup_singleton_eq.
Qed.

(** * Further properties *)

(** ** [pauli_eigenvalues]: outcomes and the cache *)

Lemma cache_find_touch (key : Z) (v : ndarray Z) (cache : lru_cache) :
  cache_find key (cache_touch key v cache) = Some v.
Proof. unfold cache_touch. cbn. by rewrite Z.eqb_refl. Qed.

Lemma cache_find_store (key : Z) (cache : lru_cache) :
  cache_ok cache ->
  cache_find key (cache_store key (pauli_eigenvalues_spec key) cache)
  = Some (pauli_eigenvalues_spec key).
Proof.
  intros Hok. unfold cache_store.
  destruct (cache_find key cache) as [w|] eqn:E.
  - destruct (cache_find_ok _ _ _ Hok E) as [_ ->]. exact E.
  - destruct (maxsize <=? length cache)%nat; cbn; by rewrite Z.eqb_refl.
Qed.

(** Whatever the argument and the recursion limit, a call on a cache the
    function has built leaves a cache that keeps its invariant, and when it
    returns, its argument is at least [1], it returns the reference
    spectrum, and the cache then holds it. *)
Lemma pauli_eigenvalues_sound (depth : nat) :
  forall (n : Z) (cache : lru_cache),
    cache_ok cache ->
    cache_ok (pauli_eigenvalues depth n cache).2
    /\ (forall r : ndarray Z,
          (pauli_eigenvalues depth n cache).1 = Returns r ->
          1 <= n /\ r = pauli_eigenvalues_spec n
          /\ cache_find n (pauli_eigenvalues depth n cache).2 = Some r).
Proof.
  induction depth as [|depth IH]; intros n cache Hok; cbn [pauli_eigenvalues].
  - split; [done|]. intros r [=].
  - destruct (cache_find n cache) as [v|] eqn:E; cbn [fst snd].
    { destruct (cache_find_ok _ _ _ Hok E) as [Hn ->].
      split; [by apply cache_touch_ok|]. intros r [= <-].
      by rewrite cache_find_touch. }
    destruct (Z.eqb_spec n 1) as [->|Hne]; cbn [fst snd].
    { split; [by apply (cache_store_ok 1)|]. intros r [= <-].
      split; [lia|]. split; [reflexivity|]. by apply (cache_find_store 1). }
    destruct (IH (n - 1) cache Hok) as [Hok1 H1].
    destruct (pauli_eigenvalues depth (n - 1) cache) as [r1 cache1]. cbn [fst snd] in *.
    destruct r1 as [a|e|]; cbn [fst snd]; [|by split..].
    destruct (H1 a eq_refl) as (Hn & -> & _).
    destruct (IH (n - 1) cache1 Hok1) as [Hok2 H2].
    destruct (pauli_eigenvalues depth (n - 1) cache1) as [r2 cache2]. cbn [fst snd] in *.
    destruct r2 as [b|e|]; cbn [fst snd]; [|by split..].
    destruct (H2 b eq_refl) as (_ & -> & _).
    rewrite spec_step by lia. cbn [fst snd].
    split; [apply cache_store_ok; [lia|done]|]. intros r [= <-].
    split; [lia|]. split; [reflexivity|]. by apply cache_find_store.
Qed.

(** X1. Whatever the argument and the recursion limit, a call on a cache
    the function has built leaves a cache that holds correct results only,
    whether it returns or raises; and when it returns, its argument is at
    least [1] and the array is the reference spectrum. *)
Theorem pauli_eigenvalues_outcomes (depth : nat) (n : Z) (cache : lru_cache) :
  cache_ok cache ->
  cache_ok (pauli_eigenvalues depth n cache).2
  /\ (forall r : ndarray Z,
        (pauli_eigenvalues depth n cache).1 = Returns r ->
        1 <= n /\ r = pauli_eigenvalues_spec n).
Proof.
  intros Hok. destruct (pauli_eigenvalues_sound depth n cache Hok) as [H1 H2].
  split; [done|]. intros r Hr. destruct (H2 r Hr) as (? & ? & _). by split.
Qed.

Lemma pauli_eigenvalues_outcomes_witness :
  cache_ok (pauli_eigenvalues 3 3 []).2
  /\ (forall r : ndarray Z,
        (pauli_eigenvalues 3 3 []).1 = Returns r ->
        1 <= 3 /\ r = pauli_eigenvalues_spec 3).
Proof. apply (pauli_eigenvalues_outcomes 3 3 []). constructor. Defined.

(** X2. A call that returned is served from the cache when it is
    repeated: the second call returns the same array as soon as the
    recursion limit allows one call, however deep the first one had to
    recurse, and the entry moves to the front of the cache. *)
Theorem pauli_eigenvalues_repeated (depth : nat) (n : Z) (cache cache' : lru_cache)
  (r : ndarray Z) :
  cache_ok cache ->
  pauli_eigenvalues depth n cache = (Returns r, cache') ->
  forall depth' : nat,
    pauli_eigenvalues (S depth') n cache' = (Returns r, cache_touch n r cache').
Proof.
  intros Hok Hrun depth'.
  destruct (pauli_eigenvalues_sound depth n cache Hok) as [_ H].
  rewrite Hrun in H. cbn [fst snd] in H.
  destruct (H r eq_refl) as (_ & _ & Hfind).
  cbn [pauli_eigenvalues]. by rewrite Hfind.
Qed.

Lemma pauli_eigenvalues_repeated_witness :
  pauli_eigenvalues 1 3 (pauli_eigenvalues 3 3 []).2
  = (Returns (pauli_eigenvalues_spec 3),
     cache_touch 3 (pauli_eigenvalues_spec 3) (pauli_eigenvalues 3 3 []).2).
Proof.
  apply (pauli_eigenvalues_repeated 3 3 []); [constructor | reflexivity].
Defined.

(** ** [pauli_eigenvalues]: the size of the cache *)

Lemma length_cache_remove (key : Z) (cache : lru_cache) :
  (length (cache_remove key cache) <= length cache)%nat.
Proof.
  induction cache as [|[k v] cache IH]; cbn; [lia|].
  destruct (k =? key); cbn; lia.
Qed.

Lemma length_cache_touch (key : Z) (v w : ndarray Z) (cache : lru_cache) :
  cache_find key cache = Some w ->
  (length (cache_touch key v cache) <= length cache)%nat.
Proof.
  unfold cache_touch. cbn [length].
  induction cache as [|[k u] cache IH]; cbn; [discriminate|].
  destruct (k =? key).
  - intros _. pose proof (length_cache_remove key cache). lia.
  - intros H. specialize (IH H). cbn [length]. lia.
Qed.

Lemma length_removelast_le {A : Type} (l : list A) :
  (length (removelast l) <= Nat.pred (length l))%nat.
Proof.
  induction l as [|x [|y l] IH]; cbn [removelast length] in *; lia.
Qed.

Lemma length_cache_store (key : Z) (v : ndarray Z) (cache : lru_cache) :
  (length cache <= maxsize)%nat -> (length (cache_store key v cache) <= maxsize)%nat.
Proof.
  intros Hlen. unfold cache_store.
  destruct (cache_find key cache); [done|].
  destruct (Nat.leb_spec maxsize (length cache)); cbn [length].
  - pose proof (length_removelast_le cache). unfold maxsize in *. lia.
  - lia.
Qed.

(** X3. The cache never grows beyond [maxsize = 128] entries: a call,
    returning or raising, leaves a cache within the bound when it found
    one. *)
Theorem pauli_eigenvalues_cache_bound (depth : nat) :
  forall (n : Z) (cache : lru_cache),
    (length cache <= maxsize)%nat ->
    (length (pauli_eigenvalues depth n cache).2 <= maxsize)%nat.
Proof.
  induction depth as [|depth IH]; intros n cache Hlen; cbn [pauli_eigenvalues].
  - done.
  - destruct (cache_find n cache) as [v|] eqn:E; cbn [snd].
    { pose proof (length_cache_touch n v v cache E). lia. }
    destruct (n =? 1); cbn [snd]; [by apply length_cache_store|].
    specialize (IH (n - 1)) as IH1. specialize (IH1 cache Hlen).
    destruct (pauli_eigenvalues depth (n - 1) cache) as [r1 cache1]. cbn [snd] in IH1.
    destruct r1 as [a| |]; cbn [snd]; try done.
    specialize (IH (n - 1) cache1 IH1).
    destruct (pauli_eigenvalues depth (n - 1) cache1) as [r2 cache2]. cbn [snd] in IH.
    destruct r2 as [b| |]; cbn [snd]; try done.
    destruct (concatenate2 a (negative b)); cbn [snd]; try done.
    by apply length_cache_store.
Qed.

Lemma pauli_eigenvalues_cache_bound_witness :
  (length (pauli_eigenvalues 4 3 []).2 <= maxsize)%nat.
Proof. apply (pauli_eigenvalues_cache_bound 4 3 []). cbn. lia. Defined.

(** X4. With nothing cached, a recursion limit below the argument is not
    enough: the call raises [RecursionError] and caches nothing. *)
Theorem pauli_eigenvalues_too_deep (depth : nat) :
  forall n : Z,
    Z.of_nat depth < n ->
    pauli_eigenvalues depth n [] = (Raises RecursionError, []).
Proof.
  induction depth as [|depth IH]; intros n Hn; cbn [pauli_eigenvalues cache_find];
    [reflexivity|].
  destruct (Z.eqb_spec n 1) as [->|_]; [lia|].
  by rewrite IH by lia.
Qed.

Lemma pauli_eigenvalues_too_deep_witness :
  pauli_eigenvalues 2 3 [] = (Raises RecursionError, []).
Proof. apply (pauli_eigenvalues_too_deep 2 3). lia. Defined.

(** ** [pauli_eigenvalues]: the entries *)

Lemma total_app (a b : list Z) : total (a ++ b) = total a + total b.
Proof.
  unfold total. induction a as [|x a IH]; cbn [app fold_right]; [reflexivity|].
  rewrite IH. lia.
Qed.

Lemma total_opp (a : list Z) : total (map Z.opp a) = - total a.
Proof.
  unfold total. induction a as [|x a IH]; cbn [map fold_right]; [reflexivity|].
  rewrite IH. lia.
Qed.

Lemma spectrum_total (k : nat) : total (spectrum k) = 0.
Proof.
  induction k as [|k IH]; [reflexivity|].
  cbn [spectrum]. rewrite total_app, total_opp. lia.
Qed.

Lemma parity_ext (n k k' : nat) :
  (forall i : nat, (i < n)%nat -> Nat.testbit k i = Nat.testbit k' i) ->
  parity n k = parity n k'.
Proof.
  induction n as [|n IH]; intros H; [reflexivity|].
  cbn [parity]. rewrite (H n) by lia. f_equal. apply IH. intros i Hi. apply H. lia.
Qed.

Lemma testbit_above (n k : nat) : (k < 2 ^ n)%nat -> Nat.testbit k n = false.
Proof.
  intros Hk. transitivity (Nat.testbit (k / 2 ^ n) 0).
  - symmetry. apply (Nat.div_pow2_bits k n 0).
  - by rewrite Nat.div_small.
Qed.

Lemma testbit_top (n k : nat) :
  (2 ^ n <= k)%nat -> (k < 2 ^ S n)%nat -> Nat.testbit k n = true.
Proof.
  intros Hlo Hhi. transitivity (Nat.testbit (k / 2 ^ n) 0).
  { symmetry. apply (Nat.div_pow2_bits k n 0). }
  replace (k / 2 ^ n)%nat with 1%nat; [reflexivity|].
  apply (Nat.div_unique k (2 ^ n) 1 (k - 2 ^ n)); cbn [Nat.pow] in Hhi; lia.
Qed.

(** The element at index [k] of the spectrum of [m + 1] qubits is [-1] when
    [k] has an odd number of bits set, and [1] otherwise. *)
Lemma spectrum_nth (m : nat) :
  forall k : nat,
    (k < 2 ^ S m)%nat ->
    nth k (spectrum m) 0 = if parity (S m) k then -1 else 1.
Proof.
  induction m as [|m IH]; intros k Hk.
  - destruct k as [|[|k]]; [reflexivity|reflexivity|cbn in Hk; lia].
  - cbn [spectrum]. pose proof (spectrum_length m) as Hlen.
    change (parity (S (S m)) k) with (xorb (Nat.testbit k (S m)) (parity (S m) k)).
    destruct (Nat.lt_ge_cases k (2 ^ S m)) as [Hlt|Hge].
    + rewrite app_nth1 by lia. rewrite IH by done.
      by rewrite (testbit_above (S m) k Hlt).
    + rewrite app_nth2 by lia. rewrite Hlen.
      change 0 with (Z.opp 0) at 1. rewrite map_nth.
      assert (Hk' : (k - 2 ^ S m < 2 ^ S m)%nat) by (cbn [Nat.pow] in Hk |- *; lia).
      rewrite IH by done. rewrite (testbit_top (S m) k Hge Hk).
      rewrite (parity_ext (S m) k (k - 2 ^ S m)).
      * by destruct (parity (S m) (k - 2 ^ S m)).
      * intros i Hi.
        rewrite <- (Nat.mod_pow2_bits_low k (S m) i Hi). f_equal.
        symmetry. apply (Nat.mod_unique k (2 ^ S m) 1); lia.
Qed.

(** X5. The element at index [k] of [pauli_eigenvalues(n)] is the parity
    sign of [k]: [-1] when [k] has an odd number of its [n] bits set, [+1]
    otherwise (the eigenvalue of the basis state [k] under the product of
    [n] operators with the spectrum [[1, -1]]). *)
Theorem pauli_eigenvalues_parity (depth : nat) (n : Z) (cache : lru_cache) :
  cache_ok cache -> 1 <= n -> (Z.to_nat n <= depth)%nat ->
  exists r : ndarray Z,
    (pauli_eigenvalues depth n cache).1 = Returns r
    /\ (forall k : nat, (k < 2 ^ Z.to_nat n)%nat ->
          nth k (flat r) 0 = if parity (Z.to_nat n) k then -1 else 1).
Proof.
  intros Hok Hn Hdepth.
  destruct (pauli_eigenvalues_returns depth n cache Hok Hn Hdepth) as (cache' & -> & _).
  eexists. split; [reflexivity|]. intros k Hk.
  unfold pauli_eigenvalues_spec, array1. cbn [flat].
  replace (Z.to_nat n) with (S (Z.to_nat (n - 1))) in * by lia.
  by apply spectrum_nth.
Qed.

Lemma pauli_eigenvalues_parity_witness :
  exists r : ndarray Z,
    (pauli_eigenvalues 3 3 []).1 = Returns r
    /\ (forall k : nat, (k < 2 ^ Z.to_nat 3)%nat ->
          nth k (flat r) 0 = if parity (Z.to_nat 3) k then -1 else 1).
Proof.
  apply (pauli_eigenvalues_parity 3 3 []); [constructor | lia | cbn; lia].
Defined.

(** X6. The elements of [pauli_eigenvalues(n)] add up to zero: as many are
    [+1] as are [-1]. *)
Theorem pauli_eigenvalues_total (depth : nat) (n : Z) (cache : lru_cache) :
  cache_ok cache -> 1 <= n -> (Z.to_nat n <= depth)%nat ->
  exists r : ndarray Z,
    (pauli_eigenvalues depth n cache).1 = Returns r /\ total (flat r) = 0.
Proof.
  intros Hok Hn Hdepth.
  destruct (pauli_eigenvalues_returns depth n cache Hok Hn Hdepth) as (cache' & -> & _).
  eexists. split; [reflexivity|]. apply spectrum_total.
Qed.

Lemma pauli_eigenvalues_total_witness :
  exists r : ndarray Z,
    (pauli_eigenvalues 3 3 []).1 = Returns r /\ total (flat r) = 0.
Proof.
  apply (pauli_eigenvalues_total 3 3 []); [constructor | lia | cbn; lia].
Defined.

(** ** The checks on matrices that are not square *)

Lemma transpose_matrix (r c : nat) (M : carray) :
  shape M = [r; c] -> transpose M = Returns (tabulate c r (fun i j => M.[j, i])).
Proof. intros HM. unfold transpose. by rewrite HM. Qed.

Lemma dot_adjoint_matrix (r c : nat) (M : carray) :
  shape M = [r; c] ->
  dot M (conj (tabulate c r (fun i j => M.[j, i])))
  = Returns (tabulate r r (times_adjoint c M)).
Proof.
  intros HM. unfold dot. rewrite HM. cbn [conj shape tabulate].
  rewrite Nat.eqb_refl. f_equal. apply tabulate_ext. intros i j Hi Hj.
  unfold dot_entry, times_adjoint. apply fold_left_ext_seq. intros acc l Hl.
  do 2 f_equal.
  rewrite (entry_conj _ c r) by (try apply length_tabulate; done).
  by rewrite entry_tabulate.
Qed.

Lemma check_unitary_matrix_test {L : Libm} (r c : nat) (M : carray) :
  shape M = [r; c] ->
  check_unitary M
  = if negb (forallb (fun i => forallb (fun j =>
               isclose (identity_entry i j) (times_adjoint c M i j)) (seq 0 r)) (seq 0 r))
    then Raises (ValueError (msg_not_unitary M)) else Returns tt.
Proof.
  intros HM. unfold check_unitary, len. rewrite HM, bind_returns.
  rewrite (transpose_matrix r c M HM), bind_returns.
  rewrite (dot_adjoint_matrix r c M HM), bind_returns.
  rewrite (allclose_same _ _ r r) by reflexivity. rewrite bind_returns.
  same_test. by rewrite entry_eye, entry_tabulate.
Qed.

(** X7. [check_unitary] does not ask for a square matrix: on an [r] by [c]
    matrix it compares the [r] by [r] product [M · Mᴴ] with the identity, so
    it returns [None] exactly when the rows are orthonormal within the
    tolerance (a matrix with fewer rows than columns can pass), and raises
    the not-unitary [ValueError] otherwise. *)
Theorem check_unitary_rows {L : Libm} (r c : nat) (M : carray) :
  shape M = [r; c] ->
  (rows_orthonormal_within_tolerance r c M -> check_unitary M = Returns tt)
  /\ (~ rows_orthonormal_within_tolerance r c M ->
      check_unitary M = Raises (ValueError (msg_not_unitary M))).
Proof.
  intros HM. rewrite (check_unitary_matrix_test r c M HM).
  apply verdict. apply forallb_seq2.
Qed.

Lemma check_unitary_rows_witness :
  shape row_10 = [1; 2]%nat
  /\ rows_orthonormal_within_tolerance 1 2 row_10
  /\ check_unitary row_10 = Returns tt.
Proof.
  assert (Hr : rows_orthonormal_within_tolerance 1 2 row_10).
  { refine (proj1 (forallb_seq2
      (fun i j => isclose (identity_entry i j) (times_adjoint 2 row_10 i j)) 1 1) _).
    vm_compute. reflexivity. }
  split; [reflexivity|]. split; [exact Hr|].
  exact (proj1 (check_unitary_rows 1 2 row_10 eq_refl) Hr).
Defined.

(** X8. On a matrix that is not square and has neither one row nor one
    column, [check_hermitian] does not reach its own error: the comparison
    of [M] with its conjugate transpose fails in numpy, whose [ValueError]
    (the shapes cannot be broadcast) leaves the function. *)
Theorem check_hermitian_not_square {L : Libm} (r c : nat) (M : carray) :
  shape M = [r; c] -> r <> c -> r <> 1%nat -> c <> 1%nat ->
  check_hermitian M = Raises (ValueError msg_numpy).
Proof.
  intros HM Hrc Hr Hc. unfold check_hermitian.
  rewrite (transpose_matrix r c M HM), bind_returns.
  unfold allclose, elementwise. rewrite HM. cbn [conj shape tabulate].
  unfold broadcast_dim.
  destruct (Nat.eqb_spec r c); [done|].
  destruct (Nat.eqb_spec r 1); [done|].
  destruct (Nat.eqb_spec c 1); [done|]. reflexivity.
Qed.

Lemma check_hermitian_not_square_witness :
  check_hermitian matrix_2x3 = Raises (ValueError msg_numpy).
Proof.
  apply (check_hermitian_not_square 2 3 matrix_2x3); [reflexivity | lia | lia | lia].
Defined.

(** X9. On a matrix of one row and [c > 1] columns, numpy broadcasts the
    row against its conjugate transpose, a column: [check_hermitian]
    returns [None] exactly when every entry of the row is close to the
    conjugate of every entry, and raises the not-Hermitian [ValueError]
    otherwise. It does not refuse the matrix for its shape. *)
Theorem check_hermitian_row {L : Libm} (c : nat) (M : carray) :
  shape M = [1%nat; c] -> c <> 1%nat ->
  (row_self_conjugate_within_tolerance c M -> check_hermitian M = Returns tt)
  /\ (~ row_self_conjugate_within_tolerance c M ->
      check_hermitian M = Raises (ValueError (msg_not_hermitian M))).
Proof.
  intros HM Hc.
  assert (Htest : check_hermitian M
    = if negb (forallb (fun i => forallb (fun j =>
                 isclose M.[0, j] (C128.conj M.[0, i])) (seq 0 c)) (seq 0 c))
      then Raises (ValueError (msg_not_hermitian M)) else Returns tt).
  { unfold check_hermitian.
    rewrite (transpose_matrix 1 c M HM), bind_returns.
    unfold allclose, elementwise. rewrite HM. cbn [conj shape tabulate].
    unfold broadcast_dim.
    destruct (Nat.eqb_spec 1 c) as [Heq|_]; [by destruct Hc|].
    destruct (Nat.eqb_spec c 1) as [Heq|_]; [done|].
    cbn [Nat.eqb]. rewrite !bind_returns. cbn [flat tabulate]. rewrite forallb_rows.
    same_test. unfold stretch. cbn [Nat.eqb].
    destruct (Nat.eqb_spec c 1) as [Heq|_]; [done|]. f_equal.
    change (NdArray [c; 1%nat] (map C128.conj (flat_map
              (fun i0 => map (fun j0 => M.[j0, i0]) (seq 0 1)) (seq 0 c))))
      with (conj (tabulate c 1 (fun i0 j0 => M.[j0, i0]))).
    rewrite (entry_conj _ c 1) by (try apply length_tabulate; done || lia).
    by rewrite entry_tabulate by lia. }
  rewrite Htest. apply verdict. apply forallb_seq2.
Qed.

Lemma check_hermitian_row_witness :
  shape row_11 = [1; 2]%nat
  /\ row_self_conjugate_within_tolerance 2 row_11
  /\ check_hermitian row_11 = Returns tt.
Proof.
  assert (Hr : row_self_conjugate_within_tolerance 2 row_11).
  { refine (proj1 (forallb_seq2
      (fun i j => isclose row_11.[0, j] (C128.conj row_11.[0, i])) 2 2) _).
    vm_compute. reflexivity. }
  split; [reflexivity|]. split; [exact Hr|].
  exact (proj1 (check_hermitian_row 2 row_11 eq_refl ltac:(lia)) Hr).
Defined.

(** ** Matrices without entries *)

(** X10. A matrix without rows and columns passes the three numeric
    checks, which find no entry to compare, and only
    [check_matrix_dimensions] refuses it, for every tuple of targets: no
    power of two is zero. *)
Theorem empty_matrix_passes {L : Libm} (M : carray) :
  square 0 M ->
  check_unitary M = Returns tt
  /\ check_hermitian M = Returns tt
  /\ check_CPTP [M] = Returns tt
  /\ (forall targets : list Z,
        check_matrix_dimensions M targets
        = Raises (ValueError (msg_wrong_dimension 0 (2 ^ length targets)))).
Proof.
  intros HM. split; [by rewrite (check_unitary_test 0 M HM)|].
  split; [by rewrite (check_hermitian_test 0 M HM)|].
  split.
  - rewrite (check_CPTP_test 0 [M]); [reflexivity|discriminate|by constructor].
  - intros targets. unfold square in HM. unfold check_matrix_dimensions. rewrite HM. cbn.
    destruct (Nat.eqb_spec (2 ^ length targets) 0) as [H0|_]; [|reflexivity].
    by apply Nat.pow_nonzero in H0.
Qed.

Lemma empty_matrix_passes_witness :
  square 0 matrix_0x0
  /\ check_unitary matrix_0x0 = Returns tt
  /\ check_hermitian matrix_0x0 = Returns tt
  /\ check_CPTP [matrix_0x0] = Returns tt
  /\ (forall targets : list Z,
        check_matrix_dimensions matrix_0x0 targets
        = Raises (ValueError (msg_wrong_dimension 0 (2 ^ length targets)))).
Proof.
  split; [reflexivity|]. apply (empty_matrix_passes matrix_0x0). reflexivity.
Defined.

(** ** The checks one after the other *)

Lemma check_matrix_dimensions_returns (M : carray) (targets : list Z) :
  check_matrix_dimensions M targets = Returns tt
  <-> shape M = [2 ^ length targets; 2 ^ length targets]%nat.
Proof.
  unfold check_matrix_dimensions. split.
  - destruct (shape M) as [|a [|b [|x sh]]]; cbn; try discriminate.
    destruct (Nat.eqb_spec a b) as [->|_]; cbn; [|discriminate].
    destruct (Nat.eqb_spec (2 ^ length targets) b) as [->|_]; cbn; [done|discriminate].
  - intros ->. cbn. by rewrite !Nat.eqb_refl.
Qed.

(** X11. [check_matrix_dimensions] returns [None] exactly on the matrices
    of the shape [(2^k, 2^k)], [k] the number of targets: what the targets
    are (repeated, negative) plays no part. *)
Theorem check_matrix_dimensions_accepts (M : carray) (targets : list Z) :
  check_matrix_dimensions M targets = Returns tt
  <-> shape M = [2 ^ length targets; 2 ^ length targets]%nat.
Proof. apply check_matrix_dimensions_returns. Qed.

(** X12. After [check_matrix_dimensions] has accepted a matrix,
    [check_unitary] and [check_hermitian] end in one of two ways: [None], or
    their own [ValueError]; no error of numpy leaves them. *)
Theorem checks_after_dimensions {L : Libm} (M : carray) (targets : list Z) :
  check_matrix_dimensions M targets = Returns tt ->
  (check_unitary M = Returns tt
   \/ check_unitary M = Raises (ValueError (msg_not_unitary M)))
  /\ (check_hermitian M = Returns tt
      \/ check_hermitian M = Raises (ValueError (msg_not_hermitian M))).
Proof.
  intros H. apply check_matrix_dimensions_returns in H.
  rewrite (check_unitary_test _ M H), (check_hermitian_test _ M H).
  split; match goal with |- context [negb ?b] => destruct b end; cbn; auto.
Qed.

Lemma checks_after_dimensions_witness :
  check_matrix_dimensions shear [0] = Returns tt
  /\ (check_unitary shear = Returns tt
      \/ check_unitary shear = Raises (ValueError (msg_not_unitary shear)))
  /\ (check_hermitian shear = Returns tt
      \/ check_hermitian shear = Raises (ValueError (msg_not_hermitian shear))).
Proof.
  split; [reflexivity|]. apply (checks_after_dimensions shear [0]). reflexivity.
Defined.

(** X13. After [check_matrix_dimensions] has accepted every matrix of a
    non-empty list for the same targets, [check_CPTP] ends in [None] or in
    its own [ValueError]. *)
Theorem check_CPTP_after_dimensions {L : Libm} (matrices : list carray) (targets : list Z) :
  matrices <> [] ->
  Forall (fun M => check_matrix_dimensions M targets = Returns tt) matrices ->
  check_CPTP matrices = Returns tt
  \/ check_CPTP matrices = Raises (ValueError (msg_not_CPTP matrices)).
Proof.
  intros Hne Hall.
  rewrite (check_CPTP_test (2 ^ length targets) matrices Hne).
  - match goal with |- context [negb ?b] => destruct b end; cbn; auto.
  - eapply Forall_impl; [exact Hall|]. intros M HM. by apply check_matrix_dimensions_returns.
Qed.

Lemma check_CPTP_after_dimensions_witness :
  [projector0] <> []
  /\ Forall (fun M => check_matrix_dimensions M [0] = Returns tt) [projector0]
  /\ (check_CPTP [projector0] = Returns tt
      \/ check_CPTP [projector0] = Raises (ValueError (msg_not_CPTP [projector0]))).
Proof.
  assert (Hne : [projector0] <> []) by discriminate.
  assert (Hall : Forall (fun M => check_matrix_dimensions M [0] = Returns tt) [projector0])
    by (repeat constructor).
  split; [exact Hne|]. split; [exact Hall|].
  exact (check_CPTP_after_dimensions [projector0] [0] Hne Hall).
Defined.

(** ** Kraus matrices of different sizes *)

Lemma comprehension_terms_sides (matrices : list carray) :
  Forall (fun M => exists n : nat, square n M) matrices ->
  comprehension (fun matrix => matrix_T ← transpose matrix; dot (conj matrix_T) matrix) matrices
  = Returns (map (fun M => term (nth 0 (shape M) O) M) matrices).
Proof.
  induction 1 as [|M matrices [n HM] _ IH]; [reflexivity|].
  cbn [comprehension map].
  rewrite (transpose_square n M HM), bind_returns, (adjoint_dot n M HM), bind_returns.
  rewrite IH. unfold square in HM. by rewrite HM.
Qed.

(** X14. When the first two matrices of the list are square of different
    sides, neither of side [1], [check_CPTP] does not reach its comparison:
    the sum fails in numpy, whose [ValueError] (the shapes cannot be
    broadcast) leaves the function, whatever square matrices follow. *)
Theorem check_CPTP_mixed_sides {L : Libm} (n m : nat) (A B : carray) (rest : list carray) :
  square n A -> square m B -> n <> m -> n <> 1%nat -> m <> 1%nat ->
  Forall (fun M => exists k : nat, square k M) rest ->
  check_CPTP (A :: B :: rest) = Raises (ValueError msg_numpy).
Proof.
  intros HA HB Hnm Hn Hm Hrest. unfold check_CPTP.
  rewrite comprehension_terms_sides by (repeat constructor; eauto).
  rewrite bind_returns. cbn [map sum sum_from].
  unfold square in HA, HB. rewrite HA, HB. cbn [nth].
  unfold add at 1, elementwise. cbn [zero_plus shape term tabulate].
  unfold broadcast_dim.
  destruct (Nat.eqb_spec n m); [done|].
  destruct (Nat.eqb_spec n 1); [done|].
  destruct (Nat.eqb_spec m 1); [done|]. reflexivity.
Qed.

Lemma check_CPTP_mixed_sides_witness :
  check_CPTP [identity2; identity3] = Raises (ValueError msg_numpy).
Proof.
  apply (check_CPTP_mixed_sides 2 3 identity2 identity3 []);
    [reflexivity | reflexivity | lia | lia | lia | constructor].
Defined.

(** ** [ir_matrix_to_ndarray]: cells that are not pairs *)

(** A cell of at least two elements is decoded from its first two; a
    shorter one raises [IndexError]. *)
Lemma decode_cell (element : list float64) :
  (re ← getitem element 0; im ← getitem element 1; Returns (Complex re im))
  = if (2 <=? length element)%nat then Returns (decode element) else Raises IndexError.
Proof. destruct element as [|x [|y element]]; reflexivity. Qed.

Lemma decode_row_outcome (row : list (list float64)) :
  comprehension (fun element =>
    re ← getitem element 0; im ← getitem element 1; Returns (Complex re im)) row
  = if forallb (fun element => (2 <=? length element)%nat) row
    then Returns (map decode row) else Raises IndexError.
Proof.
  induction row as [|element row IH]; [reflexivity|].
  cbn [comprehension forallb map]. rewrite decode_cell, IH.
  destruct (2 <=? length element)%nat; [|reflexivity]. rewrite bind_returns.
  destruct (forallb _ row); reflexivity.
Qed.

Lemma decode_rows_outcome (matrix : list (list (list float64))) :
  comprehension (fun row =>
    comprehension (fun element =>
      re ← getitem element 0; im ← getitem element 1; Returns (Complex re im)) row) matrix
  = if forallb (forallb (fun element => (2 <=? length element)%nat)) matrix
    then Returns (map (map decode) matrix) else Raises IndexError.
Proof.
  induction matrix as [|row matrix IH]; [reflexivity|].
  cbn [comprehension forallb map]. rewrite decode_row_outcome, IH.
  destruct (forallb _ row); [|reflexivity]. rewrite bind_returns.
  destruct (forallb _ matrix); reflexivity.
Qed.

(** X15. A cell with fewer than two elements anywhere in the input makes
    [ir_matrix_to_ndarray] raise [IndexError]; no array is built. *)
Theorem ir_matrix_to_ndarray_short_cells (matrix : list (list (list float64))) :
  Exists (Exists (fun element => (length element < 2)%nat)) matrix ->
  ir_matrix_to_ndarray matrix = Raises IndexError.
Proof.
  intros Hshort. unfold ir_matrix_to_ndarray. rewrite decode_rows_outcome.
  replace (forallb _ matrix) with false; [reflexivity|].
  symmetry. apply not_true_is_false. intros Hall.
  rewrite forallb_forall in Hall.
  apply Exists_exists in Hshort as (row & Hrow & Hcell).
  apply Exists_exists in Hcell as (element & Hel & Hlen).
  specialize (Hall row (proj1 (list_elem_of_In _ _) Hrow)).
  rewrite forallb_forall in Hall.
  specialize (Hall element (proj1 (list_elem_of_In _ _) Hel)).
  apply Nat.leb_le in Hall. lia.
Qed.

Lemma ir_matrix_to_ndarray_short_cells_witness :
  ir_matrix_to_ndarray [[[1; 0]; [0; 0]]; [[0; 0]; [1]]]%float = Raises IndexError.
Proof.
  apply ir_matrix_to_ndarray_short_cells.
  apply Exists_cons_tl, Exists_cons_hd, Exists_cons_tl, Exists_cons_hd. cbn. lia.
Defined.

(** X16. Only the first two elements of a cell are read: cutting every
    cell after its second element changes neither the array returned nor
    the error raised. *)
Theorem ir_matrix_to_ndarray_first_two (matrix : list (list (list float64))) :
  ir_matrix_to_ndarray (map (map (take 2)) matrix) = ir_matrix_to_ndarray matrix.
Proof.
  unfold ir_matrix_to_ndarray. rewrite !decode_rows_outcome.
  assert (Hcell : forall element : list float64,
            (2 <=? length (take 2 element))%nat = (2 <=? length element)%nat
            /\ decode (take 2 element) = decode element).
  { intros [|x [|y element]]; by split. }
  assert (Hrow : forall row : list (list float64),
            forallb (fun element => (2 <=? length element)%nat) (map (take 2) row)
            = forallb (fun element => (2 <=? length element)%nat) row
            /\ map decode (map (take 2) row) = map decode row).
  { induction row as [|element row [IH1 IH2]]; [by split|].
    cbn [map forallb]. destruct (Hcell element) as [-> ->]. by rewrite IH1, IH2. }
  assert (Hall : forallb (forallb (fun element => (2 <=? length element)%nat))
                   (map (map (take 2)) matrix)
                 = forallb (forallb (fun element => (2 <=? length element)%nat)) matrix
                 /\ map (map decode) (map (map (take 2)) matrix) = map (map decode) matrix).
  { induction matrix as [|row matrix [IH1 IH2]]; [by split|].
    cbn [map forallb]. destruct (Hrow row) as [-> ->]. by rewrite IH1, IH2. }
  destruct Hall as [-> ->]. reflexivity.
Qed.

(** X17. The array decoded from [r >= 1] rows of [c] pairs each passes
    [check_matrix_dimensions] exactly when both [r] and [c] are
    [2 ** len(targets)]. *)
Theorem decoded_matrix_dimensions (matrix : list (list (list float64))) (r c : nat)
  (targets : list Z) :
  length matrix = r -> (0 < r)%nat ->
  Forall (fun row => length row = c) matrix ->
  Forall (Forall (fun element => length element = 2%nat)) matrix ->
  exists a : carray,
    ir_matrix_to_ndarray matrix = Returns a
    /\ (check_matrix_dimensions a targets = Returns tt
        <-> r = (2 ^ length targets)%nat /\ c = (2 ^ length targets)%nat).
Proof.
  intros Hr Hpos Hrows Hcells. unfold ir_matrix_to_ndarray.
  rewrite (decode_rows matrix Hcells), bind_returns.
  assert (Hrows' : Forall (fun row => length row = c) (map (map decode) matrix)).
  { apply Forall_map. eapply Forall_impl; [exact Hrows|]. intros row Hrow. cbn.
    by rewrite length_map. }
  assert (Hne : map (map decode) matrix <> []).
  { destruct matrix; [cbn in Hr; lia|discriminate]. }
  rewrite (array2_rows c _ Hne Hrows'), length_map, Hr.
  eexists. split; [reflexivity|].
  rewrite check_matrix_dimensions_returns. cbn [shape]. split.
  - intros [= -> ->]. by split.
  - intros [-> ->]. reflexivity.
Qed.

Lemma decoded_matrix_dimensions_witness :
  exists a : carray,
    ir_matrix_to_ndarray ir_example = Returns a
    /\ (check_matrix_dimensions a [5] = Returns tt
        <-> 2%nat = (2 ^ length [5])%nat /\ 2%nat = (2 ^ length [5])%nat).
Proof.
  apply (decoded_matrix_dimensions ir_example 2 2 [5]);
    [reflexivity | lia | repeat constructor | repeat constructor].
Defined.

(** ** [from_braket_instruction]: registered constructors *)

Lemma find_impl_ext (reg reg' : gmap string (value -> result value)) (mro : list string) :
  (forall cls : string, cls ∈ mro -> reg !! cls = reg' !! cls) ->
  find_impl reg mro = find_impl reg' mro.
Proof.
  induction mro as [|cls mro IH]; intros H; [reflexivity|].
  cbn [find_impl]. rewrite (H cls) by left.
  destruct (reg' !! cls); [reflexivity|]. apply IH. intros c Hc. apply H. by right.
Qed.

(** X18. The constructor of the most specific registered class serves the
    instruction: when the classes before [cls] in the method resolution
    order of the instruction have no constructor and [cls] has one,
    [from_braket_instruction] is the call of this constructor on the
    instruction, with its result or its error. *)
Theorem from_braket_instruction_most_specific
  (constructors : gmap string (value -> result value)) (instruction : value)
  (before after : list string) (cls : string) (constructor : value -> result value) :
  type_of instruction = before ++ cls :: after ->
  (forall c : string, c ∈ before -> constructors !! c = None) ->
  constructors !! cls = Some constructor ->
  from_braket_instruction constructors instruction = constructor instruction.
Proof.
  intros Hmro Hbefore Hcls.
  unfold from_braket_instruction, call, dispatch, _from_braket_instruction.
  cbn [registry fallback]. rewrite Hmro. clear Hmro.
  induction before as [|c before IH]; cbn [app find_impl].
  - by rewrite Hcls.
  - rewrite (Hbefore c) by left. apply IH. intros c' Hc'. apply Hbefore. by right.
Qed.

Lemma from_braket_instruction_most_specific_witness :
  from_braket_instruction rotation_constructors derived_instruction
  = (fun instruction => Returns pauli_x_gate) derived_instruction.
Proof.
  apply (from_braket_instruction_most_specific rotation_constructors derived_instruction
           ["HalfTurn"] ["BaseModel"; "object"] "Rotation").
  - reflexivity.
  - intros c Hc. apply list_elem_of_In in Hc. cbn in Hc.
    apply lookup_singleton_ne. intuition (subst; discriminate).
  - apply lookup_singleton_eq.
Defined.

(** X19. Registering a constructor for a class leaves every instruction
    that is not an instance of this class as it was: it is served by the
    same constructor, or refused as before. *)
Theorem from_braket_instruction_register_other
  (constructors : gmap string (value -> result value)) (instruction : value)
  (cls : string) (constructor : value -> result value) :
  ~ isinstance instruction cls ->
  from_braket_instruction (<[cls := constructor]> constructors) instruction
  = from_braket_instruction constructors instruction.
Proof.
  intros Hnot. unfold from_braket_instruction, call, dispatch, _from_braket_instruction.
  cbn [registry fallback].
  rewrite (find_impl_ext (<[cls := constructor]> constructors) constructors); [reflexivity|].
  intros c Hc. apply lookup_insert_ne. intros ->. by apply Hnot.
Qed.

Lemma from_braket_instruction_register_other_witness :
  from_braket_instruction
    (<["Rotation" := fun instruction => Returns pauli_x_gate]> ∅) unknown_instruction
  = from_braket_instruction ∅ unknown_instruction.
Proof.
  apply (from_braket_instruction_register_other ∅ unknown_instruction "Rotation").
  intros H. apply list_elem_of_In in H. cbn in H. intuition discriminate.
Defined.

(** ** NaN entries *)

Section NaN.
Local Open Scope float_scope.

Lemma is_nan_spec (x : float64) :
  PrimFloat.is_nan x = true <-> Prim2SF x = S754_nan.
Proof.
  unfold PrimFloat.is_nan. rewrite FloatAxioms.eqb_spec. split.
  - intros H. apply negb_true_iff in H. unfold SFeqb in H.
    destruct (Prim2SF x) as [s|s| |s m e]; cbn in H; try discriminate; try reflexivity.
    + destruct s; discriminate.
    + destruct s; rewrite Z.compare_refl, Pos.compare_cont_refl in H; discriminate.
  - by intros ->.
Qed.

Lemma nan_eqb_l (x y : float64) : PrimFloat.is_nan x = true -> (x =? y) = false.
Proof. intros H. apply is_nan_spec in H. by rewrite FloatAxioms.eqb_spec, H. Qed.

Lemma nan_eqb_r (x y : float64) : PrimFloat.is_nan y = true -> (x =? y) = false.
Proof.
  intros H. apply is_nan_spec in H. rewrite FloatAxioms.eqb_spec, H.
  by destruct (Prim2SF x).
Qed.

Lemma nan_not_finite (x : float64) :
  PrimFloat.is_nan x = true -> PrimFloat.is_finite x = false.
Proof. intros H. unfold PrimFloat.is_finite. by rewrite H. Qed.

Lemma nan_mul_l (x y : float64) : PrimFloat.is_nan x = true -> PrimFloat.is_nan (x * y) = true.
Proof.
  rewrite !is_nan_spec. intros H. by rewrite mul_spec, H.
Qed.

Lemma nan_mul_r (x y : float64) : PrimFloat.is_nan y = true -> PrimFloat.is_nan (x * y) = true.
Proof.
  rewrite !is_nan_spec. intros H. rewrite mul_spec, H. by destruct (Prim2SF x).
Qed.

Lemma nan_sub_l (x y : float64) : PrimFloat.is_nan x = true -> PrimFloat.is_nan (x - y) = true.
Proof.
  rewrite !is_nan_spec. intros H. by rewrite sub_spec, H.
Qed.

Lemma nan_sub_r (x y : float64) : PrimFloat.is_nan y = true -> PrimFloat.is_nan (x - y) = true.
Proof.
  rewrite !is_nan_spec. intros H. rewrite sub_spec, H. by destruct (Prim2SF x).
Qed.

Lemma nan_add_l (x y : float64) : PrimFloat.is_nan x = true -> PrimFloat.is_nan (x + y) = true.
Proof.
  rewrite !is_nan_spec. intros H. by rewrite add_spec, H.
Qed.

Lemma nan_add_r (x y : float64) : PrimFloat.is_nan y = true -> PrimFloat.is_nan (x + y) = true.
Proof.
  rewrite !is_nan_spec. intros H. rewrite add_spec, H. by destruct (Prim2SF x).
Qed.

Lemma nan_opp (x : float64) : PrimFloat.is_nan x = true -> PrimFloat.is_nan (- x) = true.
Proof.
  rewrite !is_nan_spec. intros H. by rewrite opp_spec, H.
Qed.

End NaN.

Lemma has_nan_conj (x : complex128) : has_nan x = true -> has_nan (C128.conj x) = true.
Proof.
  unfold has_nan, C128.conj. cbn [real imag]. intros H.
  apply orb_true_iff in H as [H|H]; apply orb_true_iff; [by left|right; by apply nan_opp].
Qed.

(** The real part of a product is a NaN when a factor has a NaN part. *)
Lemma nan_product_l (x y : complex128) :
  has_nan x = true -> PrimFloat.is_nan (real (C128.mul x y)) = true.
Proof.
  unfold has_nan, C128.mul. cbn [real imag]. intros H.
  apply orb_true_iff in H as [H|H].
  - by apply nan_sub_l, nan_mul_l.
  - by apply nan_sub_r, nan_mul_l.
Qed.

Lemma nan_product_r (x y : complex128) :
  has_nan y = true -> PrimFloat.is_nan (real (C128.mul x y)) = true.
Proof.
  unfold has_nan, C128.mul. cbn [real imag]. intros H.
  apply orb_true_iff in H as [H|H].
  - by apply nan_sub_l, nan_mul_r.
  - by apply nan_sub_r, nan_mul_r.
Qed.

(** A sum keeps the NaN of one of its terms. *)
Lemma nan_sum {A : Type} (g : A -> complex128) (l : list A) :
  forall acc : complex128,
    PrimFloat.is_nan (real acc) = true
    \/ Exists (fun a => PrimFloat.is_nan (real (g a)) = true) l ->
    PrimFloat.is_nan (real (fold_left (fun acc a => C128.add acc (g a)) l acc)) = true.
Proof.
  induction l as [|a l IH]; intros acc H; cbn [fold_left].
  - destruct H as [H|H]; [done|by apply Exists_nil in H].
  - apply IH. destruct H as [H|H].
    + left. unfold C128.add. cbn [real]. by apply nan_add_l.
    + apply Exists_cons in H as [H|H]; [|by right].
      left. unfold C128.add. cbn [real]. by apply nan_add_r.
Qed.

Lemma isclose_nan_l {L : Libm} (x y : complex128) : has_nan x = true -> isclose x y = false.
Proof.
  unfold has_nan, isclose, C128.isfinite, C128.eqb. intros H.
  apply orb_true_iff in H as [H|H].
  - rewrite (nan_not_finite _ H), (nan_eqb_l _ (real y) H). reflexivity.
  - rewrite (nan_not_finite _ H), (nan_eqb_l _ (imag y) H).
    by rewrite !andb_false_r.
Qed.

Lemma isclose_nan_r {L : Libm} (x y : complex128) : has_nan y = true -> isclose x y = false.
Proof.
  unfold has_nan, isclose, C128.isfinite, C128.eqb. intros H.
  apply orb_true_iff in H as [H|H].
  - rewrite (nan_not_finite _ H), (nan_eqb_r (real x) _ H).
    by rewrite !andb_false_r.
  - rewrite (nan_not_finite _ H), (nan_eqb_r (imag x) _ H).
    by rewrite !andb_false_r.
Qed.

Lemma in_seq_0 (n i : nat) : (i < n)%nat -> i ∈ seq 0 n.
Proof. intros H. apply list_elem_of_In, in_seq. lia. Qed.

(** A test that fails at one entry fails. *)
Lemma forallb_seq2_false (q : nat -> nat -> bool) (r c i j : nat) :
  (i < r)%nat -> (j < c)%nat -> q i j = false ->
  forallb (fun i => forallb (q i) (seq 0 c)) (seq 0 r) = false.
Proof.
  intros Hi Hj Hq. apply not_true_is_false. intros H.
  rewrite (proj1 (forallb_seq2 q r c) H i j Hi Hj) in Hq. discriminate.
Qed.

(** X20. [check_hermitian] refuses every square matrix with a NaN in an
    entry, in its real or in its imaginary part: it raises the
    not-Hermitian [ValueError]. *)
Theorem check_hermitian_nan {L : Libm} (n : nat) (M : carray) (i j : nat) :
  square n M -> (i < n)%nat -> (j < n)%nat -> has_nan M.[i, j] = true ->
  check_hermitian M = Raises (ValueError (msg_not_hermitian M)).
Proof.
  intros HM Hi Hj Hnan. rewrite (check_hermitian_test n M HM).
  rewrite (forallb_seq2_false _ n n i j Hi Hj); [reflexivity|].
  by apply isclose_nan_l.
Qed.

(** X21. [check_unitary] refuses every matrix with a NaN in an entry: the
    NaN reaches the diagonal of [M · Mᴴ], which is then close to nothing. *)
Theorem check_unitary_nan {L : Libm} (r c : nat) (M : carray) (i l : nat) :
  shape M = [r; c] -> (i < r)%nat -> (l < c)%nat -> has_nan M.[i, l] = true ->
  check_unitary M = Raises (ValueError (msg_not_unitary M)).
Proof.
  intros HM Hi Hl Hnan. rewrite (check_unitary_matrix_test r c M HM).
  rewrite (forallb_seq2_false _ r r i i Hi Hi); [reflexivity|].
  apply isclose_nan_r. unfold has_nan. apply orb_true_iff. left.
  unfold times_adjoint. apply nan_sum. right.
  apply Exists_exists. exists l. split; [by apply in_seq_0|].
  by apply nan_product_l.
Qed.

(** X22. [check_CPTP] refuses every non-empty list of square matrices of
    one size with a NaN in an entry of one of them: the NaN reaches the
    diagonal of [E]. *)
Theorem check_CPTP_nan {L : Libm} (n : nat) (matrices : list carray) (M : carray) (l i : nat) :
  Forall (square n) matrices -> M ∈ matrices ->
  (l < n)%nat -> (i < n)%nat -> has_nan M.[l, i] = true ->
  check_CPTP matrices = Raises (ValueError (msg_not_CPTP matrices)).
Proof.
  intros Hsq HM Hl Hi Hnan.
  assert (Hne : matrices <> []) by (intros ->; by apply elem_of_nil in HM).
  rewrite (check_CPTP_test n matrices Hne Hsq).
  rewrite (forallb_seq2_false _ n n i i Hi Hi); [reflexivity|].
  apply isclose_nan_l. unfold has_nan. apply orb_true_iff. left.
  unfold kraus_sum. apply nan_sum. right.
  apply Exists_exists. exists M. split; [done|].
  unfold adjoint_times. apply nan_sum. right.
  apply Exists_exists. exists l. split; [by apply in_seq_0|].
  by apply nan_product_l, has_nan_conj.
Qed.

Lemma check_hermitian_nan_witness :
  check_hermitian nan_matrix = Raises (ValueError (msg_not_hermitian nan_matrix)).
Proof.
  apply (check_hermitian_nan 2 nan_matrix 0 0); [reflexivity | lia | lia | reflexivity].
Defined.

Lemma check_unitary_nan_witness :
  check_unitary nan_matrix = Raises (ValueError (msg_not_unitary nan_matrix)).
Proof.
  apply (check_unitary_nan 2 2 nan_matrix 0 0); [reflexivity | lia | lia | reflexivity].
Defined.

Lemma check_CPTP_nan_witness :
  check_CPTP [identity2; nan_matrix]
  = Raises (ValueError (msg_not_CPTP [identity2; nan_matrix])).
Proof.
  apply (check_CPTP_nan 2 [identity2; nan_matrix] nan_matrix 0 0);
    [repeat constructor | | lia | lia | reflexivity].
  apply list_elem_of_In. cbn. tauto.
Defined.

(** ** [pauli_eigenvalues]: a warm cache *)



(** ** [check_CPTP] on matrices that are not square *)

Lemma adjoint_dot_matrix (r c : nat) (M : carray) :
  shape M = [r; c] ->
  dot (conj (tabulate c r (fun i j => M.[j, i]))) M = Returns (term_matrix r c M).
Proof.
  intros HM. unfold dot, term_matrix. rewrite HM. cbn [conj shape tabulate].
  rewrite Nat.eqb_refl. f_equal. apply tabulate_ext. intros i j Hi Hj.
  unfold dot_entry, adjoint_times. apply fold_left_ext_seq. intros acc l Hl.
  do 2 f_equal.
  rewrite (entry_conj _ c r) by (try apply length_tabulate; done).
  by rewrite entry_tabulate.
Qed.

Lemma comprehension_terms_matrix (r c : nat) (matrices : list carray) :
  Forall (fun M => shape M = [r; c]) matrices ->
  comprehension (fun matrix => matrix_T ← transpose matrix; dot (conj matrix_T) matrix) matrices
  = Returns (map (term_matrix r c) matrices).
Proof.
  induction 1 as [|M matrices HM _ IH]; [reflexivity|].
  cbn [comprehension map].
  rewrite (transpose_matrix r c M HM), bind_returns, (adjoint_dot_matrix r c M HM), bind_returns.
  by rewrite IH.
Qed.

Lemma sum_from_entries_matrix (r c : nat) (matrices : list carray) :
  forall acc : carray,
    shape acc = [c; c] ->
    exists E : carray,
      sum_from acc (map (term_matrix r c) matrices) = Returns E
      /\ shape E = [c; c]
      /\ (forall i j : nat, (i < c)%nat -> (j < c)%nat ->
            E.[i, j]
            = fold_left (fun x M => C128.add x (adjoint_times r M i j)) matrices acc.[i, j]).
Proof.
  induction matrices as [|M matrices IH]; intros acc Hacc.
  - exists acc. by repeat split.
  - cbn [map sum_from].
    destruct (add acc (term_matrix r c M)) as [e| |] eqn:Hadd;
      try (unfold add in Hadd; rewrite (elementwise_same _ _ _ c c) in Hadd by done;
           discriminate).
    rewrite bind_returns.
    destruct (entry_add acc (term_matrix r c M) e c c 0 0 Hacc eq_refl Hadd) as (He & _ & _).
    destruct (IH e He) as (E & -> & HE & Hentries).
    exists E. repeat split; [done|].
    intros i j Hi Hj. rewrite (Hentries i j Hi Hj). cbn [fold_left].
    destruct (entry_add acc (term_matrix r c M) e c c i j Hacc eq_refl Hadd) as (_ & _ & ->);
      [|done..].
    unfold term_matrix. by rewrite entry_tabulate.
Qed.

(** X24. [check_CPTP] does not ask for square matrices: on a non-empty
    list of [r] by [c] matrices it compares the [c] by [c] sum of [Mᴴ · M]
    with the identity, returns [None] exactly when they agree within the
    tolerance, and raises the CPTP [ValueError] otherwise. *)
Theorem check_CPTP_columns {L : Libm} (r c : nat) (matrices : list carray) :
  matrices <> [] -> Forall (fun M => shape M = [r; c]) matrices ->
  (columns_complete_within_tolerance r c matrices -> check_CPTP matrices = Returns tt)
  /\ (~ columns_complete_within_tolerance r c matrices ->
      check_CPTP matrices = Raises (ValueError (msg_not_CPTP matrices))).
Proof.
  intros Hne Hshape.
  assert (Htest : check_CPTP matrices
    = if negb (forallb (fun i => forallb (fun j =>
                 isclose (kraus_sum r matrices i j) (identity_entry i j)) (seq 0 c)) (seq 0 c))
      then Raises (ValueError (msg_not_CPTP matrices)) else Returns tt).
  { unfold check_CPTP.
    rewrite (comprehension_terms_matrix r c matrices Hshape), bind_returns.
    destruct matrices as [|M matrices]; [done|]. clear Hne.
    cbn [map sum].
    destruct (sum_from_entries_matrix r c matrices (zero_plus (term_matrix r c M)) eq_refl)
      as (E & -> & HE & Hentries).
    rewrite !bind_returns, HE. cbn [eye_star]. rewrite bind_returns.
    rewrite (allclose_same _ _ c c) by done. rewrite bind_returns.
    same_test. rewrite entry_eye, Hentries by done.
    rewrite (entry_zero_plus _ c c) by done.
    unfold term_matrix. by rewrite entry_tabulate. }
  rewrite Htest. apply verdict. apply forallb_seq2.
Qed.

Lemma check_CPTP_columns_witness :
  [column_10] <> []
  /\ Forall (fun M => shape M = [2; 1]%nat) [column_10]
  /\ columns_complete_within_tolerance 2 1 [column_10]
  /\ check_CPTP [column_10] = Returns tt.
Proof.
  assert (Hne : [column_10] <> []) by discriminate.
  assert (Hsh : Forall (fun M => shape M = [2; 1]%nat) [column_10]) by (repeat constructor).
  assert (Hc : columns_complete_within_tolerance 2 1 [column_10]).
  { refine (proj1 (forallb_seq2 (fun i j =>
      isclose (kraus_sum 2 [column_10] i j) (identity_entry i j)) 1 1) _).
    vm_compute. reflexivity. }
  split; [exact Hne|]. split; [exact Hsh|]. split; [exact Hc|].
  exact (proj1 (check_CPTP_columns 2 1 [column_10] Hne Hsh) Hc).
Defined.
